(** * Supply Chain Sentinel: the risk-aggregation pipeline of [app.py]

    A shallow embedding of the parser, the two fetchers, the similarity
    scorer, the trust scorer and the row loop of [src/app.py], with the
    properties the specification states about them.

    Conventions.
    - A Python [str] is a sequence of Unicode code points: [pystr] is
      [list N].  ASCII literals are written [cps "..."].
    - Python code that can raise runs in the [pyresult] monad; a
      [try: ... except Exception:] block is the combinator [try_except].
    - The outside world (the two HTTP services, the clock, the order in
      which worker threads finish, the third-party [fuzz.ratio], [str.lower]
      and [repr]) is passed in explicitly.
    - What a service sends is untyped: a decoded body is a [json] value,
      and the code that reads it raises where Python would. *)

From Stdlib Require Import ZArith String Ascii DecimalString Lia.
From stdpp Require Import base option list gmap.

Set Warnings "-register-all,-clear-no-such-hyp".
Local Open Scope Z_scope.

(** ** Python strings *)

Abbreviation pystr := (list N).

(** The code points of an ASCII literal. *)
Definition cps (s : string) : pystr := N_of_ascii <$> list_ascii_of_string s.

(** [s.startswith(p)]. *)
Fixpoint startswith (p s : pystr) : bool :=
  match p, s with
  | [], _ => true
  | _ :: _, [] => false
  | a :: p', b :: s' => if decide (a = b) then startswith p' s' else false
  end.

(** [p in s] for two strings: [p] occurs somewhere in [s]. *)
Fixpoint str_in (p s : pystr) : bool :=
  startswith p s || match s with [] => false | _ :: s' => str_in p s' end.

(** ** Python results *)

Inductive pyexn : Type :=
| ValueError | KeyError | IndexError | TypeError | AttributeError
| RequestException | JSONDecodeError.

Inductive pyresult (A : Type) : Type :=
| Return (a : A)
| Raise (e : pyexn).
Arguments Return {A} a.
Arguments Raise {A} e.

Definition bind {A B} (m : pyresult A) (k : A → pyresult B) : pyresult B :=
  match m with
  | Return a => k a
  | Raise e => Raise e
  end.

Notation "'let!' x ':=' m 'in' k" := (bind m (fun x => k))
  (at level 10, x name, m at level 100, k at level 200).

(** [try: body  except Exception: return handler].  Every member of [pyexn]
    is a subclass of [Exception]. *)
Definition try_except {A} (body : pyresult A) (handler : A) : pyresult A :=
  match body with
  | Return a => Return a
  | Raise _ => Return handler
  end.

(** ** Decoded JSON *)

(** A decoded JSON value.  A float is given by its IEEE 754 bit pattern;
    the [members] of an object are the items of the decoded dictionary,
    each name once. *)
Inductive json : Type :=
| JNull
| JBool (b : bool)
| JInt (n : Z)
| JFloat (bits : Z)
| JStr (s : pystr)
| JArr (items : list json)
| JObj (members : list (pystr * json)).

(** One element of the ["vulns"] array of an OSV answer: the three members
    the program reads, each present or not. *)
Record vuln : Type := Vuln {
  vid : option json;
  summary : option json;
  severity : option json
}.

(** The value of the member [key] of a dictionary, if it has one. *)
Definition obj_get (key : pystr) (members : list (pystr * json))
    : option json :=
  snd <$> List.find (λ m : pystr * json, bool_decide (m.1 = key)) members.

(** What the program reads of a dictionary: its members ["id"],
    ["summary"] and ["severity"]. *)
Definition record_of (members : list (pystr * json)) : vuln :=
  {| vid := obj_get (cps "id") members;
     summary := obj_get (cps "summary") members;
     severity := obj_get (cps "severity") members |}.

(** The value [v] as the receiver of [v.get(...)]: a dictionary; any other
    value has no attribute [get]. *)
Definition as_record (v : json) : pyresult vuln :=
  match v with
  | JObj members => Return (record_of members)
  | _ => Raise AttributeError
  end.

(** [for v in x]: the elements of a list, the characters of a string, the
    keys of a dictionary; no other value is iterable. *)
Definition py_iter (x : json) : pyresult (list json) :=
  match x with
  | JArr items => Return items
  | JStr s => Return ((λ c, JStr [c]) <$> s)
  | JObj members => Return ((λ m : pystr * json, JStr m.1) <$> members)
  | _ => Raise TypeError
  end.

(** [len(x)]. *)
Definition py_len (x : json) : pyresult nat :=
  match x with
  | JArr items => Return (length items)
  | JStr s => Return (length s)
  | JObj members => Return (length members)
  | _ => Raise TypeError
  end.

(** A list of objects, which is what the OSV service documents for
    ["vulns"]. *)
Definition record_list (x : json) : Prop := ∃ objs, x = JArr (JObj <$> objs).

(** ** Trust score *)

Section TrustScore.
(** [repr] of a decoded JSON value that is not a string. *)
Variable py_repr : json → pystr.

(** [str(x)]. *)
Definition py_str (x : json) : pystr :=
  match x with
  | JStr s => s
  | _ => py_repr x
  end.

(** [str(v.get("severity", ""))]. *)
Definition severity_text (v : vuln) : pystr :=
  py_str (default (JStr []) (severity v)).

(** ["CRITICAL" in str(v.get("severity", ""))]. *)
Definition critical (v : vuln) : bool :=
  str_in (cps "CRITICAL") (severity_text v).

(** The local [score] of [calculate_trust_score] just before [max]. *)
Definition score_before_floor (vulns : list vuln) (similarity : Z)
    (is_new : bool) : Z :=
  let score := 100 in
  let score := if existsb critical vulns then score - 20 else score in
  let score := if bool_decide (similarity >= 90) then score - 50 else score in
  let score := if is_new then score - 10 else score in
  score.

Definition calculate_trust_score (vulns : list vuln) (similarity : Z)
    (is_new : bool) : Z :=
  Z.max (score_before_floor vulns similarity is_new) 0.

(** U+2212, the minus sign the explanation lines start with. *)
Definition minus_sign : N := 8722%N.

Definition reason_critical : pystr :=
  minus_sign :: cps "20: Critical vulnerabilities detected".
Definition reason_typo : pystr :=
  minus_sign :: cps "50: Looks like a typo of a popular package".
Definition reason_new : pystr :=
  minus_sign :: cps "10: Very new package (<30 days)".
Definition no_risk_factors : pystr := cps "No risk factors detected".

Definition score_breakdown (vulns : list vuln) (similarity : Z)
    (is_new : bool) : list pystr :=
  let reasons := [] in
  let reasons :=
    if existsb critical vulns then reasons ++ [reason_critical] else reasons in
  let reasons :=
    if bool_decide (similarity >= 90) then reasons ++ [reason_typo] else reasons in
  let reasons :=
    if is_new then reasons ++ [reason_new] else reasons in
  match reasons with
  | [] => [no_risk_factors]
  | _ => reasons
  end.

(** The amounts [calculate_trust_score] subtracts, in the order in which
    its three [if] statements run. *)
Definition deductions_applied (vulns : list vuln) (similarity : Z)
    (is_new : bool) : list Z :=
  (if existsb critical vulns then [20] else [])
  ++ (if bool_decide (similarity >= 90) then [50] else [])
  ++ (if is_new then [10] else []).

(** The explanation line that reports a deduction. *)
Definition line_of_deduction (d : Z) : pystr :=
  if decide (d = 20) then reason_critical
  else if decide (d = 50) then reason_typo
  else reason_new.

Definition sum_list (l : list Z) : Z := foldr Z.add 0 l.

(** The explanation lines other than the sentinel. *)
Definition non_sentinel (lines : list pystr) : list pystr :=
  filter (λ l, l ≠ no_risk_factors) lines.

(** Some record of [vulns] has a severity text with ["CRITICAL"] in it. *)
Definition some_critical (vulns : list vuln) : Prop :=
  ∃ v, v ∈ vulns ∧ ∃ l r, severity_text v = l ++ cps "CRITICAL" ++ r.

(** [d] is [amount] when [P] holds and [0] otherwise. *)
Definition deduction (P : Prop) (amount d : Z) : Prop :=
  P ∧ d = amount ∨ ¬ P ∧ d = 0.
End TrustScore.

(** *** The two functions on an arbitrary value

    [calculate_trust_score] and [score_breakdown] above are the functions
    on a list of records.  The row loop passes whatever the dictionary of
    answers holds; these are the same functions on such a value. *)

Section TrustScoreOnValues.
Variable py_repr : json → pystr.

(** [any("CRITICAL" in str(v.get("severity", "")) for v in items)]: the
    elements are read in order, up to the first critical one. *)
Fixpoint any_critical (items : list json) : pyresult bool :=
  match items with
  | [] => Return false
  | v :: rest =>
      let! r := as_record v in
      if critical py_repr r then Return true else any_critical rest
  end.

Definition calculate_trust_score_py (vulns : json) (similarity : Z)
    (is_new : bool) : pyresult Z :=
  let score := 100 in
  let! items := py_iter vulns in
  let! hit := any_critical items in
  let score := if hit then score - 20 else score in
  let score := if bool_decide (similarity >= 90) then score - 50 else score in
  let score := if is_new then score - 10 else score in
  Return (Z.max score 0).

Definition score_breakdown_py (vulns : json) (similarity : Z)
    (is_new : bool) : pyresult (list pystr) :=
  let reasons := [] in
  let! items := py_iter vulns in
  let! hit := any_critical items in
  let reasons := if hit then reasons ++ [reason_critical] else reasons in
  let reasons :=
    if bool_decide (similarity >= 90) then reasons ++ [reason_typo] else reasons in
  let reasons :=
    if is_new then reasons ++ [reason_new] else reasons in
  Return (match reasons with
          | [] => [no_risk_factors]
          | _ => reasons
          end).
End TrustScoreOnValues.

(** ** Manifest parser *)

(** [str.isspace] on one code point: the characters [str.strip()] removes. *)
Definition is_space (c : N) : bool :=
  ((9 <=? c) && (c <=? 13) || (28 <=? c) && (c <=? 32)
   || (c =? 133) || (c =? 160) || (c =? 5760)
   || (8192 <=? c) && (c <=? 8202)
   || (c =? 8232) || (c =? 8233) || (c =? 8239) || (c =? 8287)
   || (c =? 12288))%N.

(** The line boundaries of [str.splitlines()]. *)
Definition is_linebreak (c : N) : bool :=
  ((10 <=? c) && (c <=? 13) || (28 <=? c) && (c <=? 30)
   || (c =? 133) || (c =? 8232) || (c =? 8233))%N.

Fixpoint lstrip (s : pystr) : pystr :=
  match s with
  | [] => []
  | c :: s' => if is_space c then lstrip s' else s
  end.

Definition rstrip (s : pystr) : pystr := reverse (lstrip (reverse s)).

(** [s.strip()]. *)
Definition strip (s : pystr) : pystr := rstrip (lstrip s).

(** [splitlines], scanning left to right: [cur] is the current line,
    reversed; [after_cr] says that the previous character was a carriage
    return, so that a line feed now belongs to the same boundary. *)
Fixpoint splitlines_from (after_cr : bool) (cur : pystr) (s : pystr)
    : list pystr :=
  match s with
  | [] => match cur with [] => [] | _ => [reverse cur] end
  | c :: s' =>
      if after_cr && (c =? 10)%N then splitlines_from false cur s'
      else if is_linebreak c
           then reverse cur :: splitlines_from (c =? 13)%N [] s'
      else splitlines_from false (c :: cur) s'
  end.

(** [s.splitlines()]. *)
Definition splitlines (s : pystr) : list pystr := splitlines_from false [] s.

(** The two parts of [s] around the leftmost occurrence of [sep]. *)
Fixpoint split_first (sep s : pystr) : option (pystr * pystr) :=
  if startswith sep s then Some ([], drop (length sep) s)
  else match s with
       | [] => None
       | c :: s' => (λ lr : pystr * pystr, (c :: lr.1, lr.2)) <$> split_first sep s'
       end.

(** [s.split(sep, 1)]. *)
Definition split1 (sep s : pystr) : pyresult (list pystr) :=
  match sep with
  | [] => Raise ValueError
  | _ => Return (match split_first sep s with
                 | Some (l, r) => [l; r]
                 | None => [s]
                 end)
  end.

(** The tuple assignment [a, b = xs]. *)
Definition unpack2 {A} (xs : list A) : pyresult (A * A) :=
  match xs with
  | [a; b] => Return (a, b)
  | _ => Raise ValueError
  end.

(** A parsed line: the name, and the version or [None]. *)
Abbreviation declaration := (pystr * option pystr)%type.

Definition comparators : list pystr :=
  [cps "=="; cps ">="; cps "<="; cps "~="; cps ">"].

(** The [for sep in ...: ... else: ...] statement of [parse_requirements],
    returning the tuple it appends. *)
Fixpoint parse_with (seps : list pystr) (line : pystr)
    : pyresult declaration :=
  match seps with
  | [] => Return (line, None)
  | sep :: seps' =>
      if str_in sep line then
        let! parts := split1 sep line in
        let! nv := unpack2 parts in
        Return (strip nv.1, Some (strip nv.2))
      else parse_with seps' line
  end.

Definition parse_line (line : pystr) : pyresult declaration :=
  parse_with comparators line.

(** The test that sends a stripped line to [continue]. *)
Definition skipped (line : pystr) : bool :=
  bool_decide (line = []) || startswith (cps "#") line.

(** The outer loop of [parse_requirements] over the remaining [lines], with
    the list [packages] built so far. *)
Fixpoint parse_lines (lines : list pystr) (packages : list declaration)
    : pyresult (list declaration) :=
  match lines with
  | [] => Return packages
  | line :: rest =>
      let line := strip line in
      if skipped line then parse_lines rest packages
      else
        let! d := parse_line line in
        parse_lines rest (packages ++ [d])
  end.

Definition parse_requirements (file_content : pystr)
    : pyresult (list declaration) :=
  parse_lines (splitlines file_content) [].

(** The first token of [comparators], in list order, that occurs in
    [line]. *)
Definition first_comparator (line : pystr) : option pystr :=
  List.find (λ sep, str_in sep line) comparators.

(** [l] and [r] are the parts of [s] around the leftmost occurrence of
    [sep]. *)
Definition leftmost_split (sep s l r : pystr) : Prop :=
  s = l ++ sep ++ r ∧ ∀ l' r', s = l' ++ sep ++ r' → (length l ≤ length l')%nat.

(** The stripped lines of a manifest that are neither empty nor comments
    ([35] is the code point of the comment marker). *)
Definition kept_lines (file_content : pystr) : list pystr :=
  filter (λ line, line ≠ [] ∧ head line ≠ Some 35%N)
         (strip <$> splitlines file_content).

(** No white space at either end. *)
Definition trimmed (s : pystr) : Prop :=
  (∀ c, head s = Some c → is_space c = false)
  ∧ (∀ c, last s = Some c → is_space c = false).

(** The declaration of a kept line, as the specification words it: split at
    the leftmost occurrence of the first comparator in priority order, or
    keep the whole line as the name. *)
Definition declaration_of (line : pystr) : declaration :=
  match first_comparator line with
  | Some sep =>
      match split_first sep line with
      | Some (l, r) => (strip l, Some (strip r))
      | None => (line, None)
      end
  | None => (line, None)
  end.

(** *** The manifest as the specification reads it

    These notions do not use the functions of the parser. *)

(** The code points that Python counts as white space. *)
Definition py_whitespace (c : N) : Prop :=
  c ∈ [9; 10; 11; 12; 13; 28; 29; 30; 31; 32; 133; 160; 5760;
       8192; 8193; 8194; 8195; 8196; 8197; 8198; 8199; 8200; 8201; 8202;
       8232; 8233; 8239; 8287; 12288]%N.

(** The code points at which Python ends a line. *)
Definition py_linebreak (c : N) : Prop :=
  c ∈ [10; 11; 12; 13; 28; 29; 30; 133; 8232; 8233]%N.

#[global] Instance py_whitespace_dec (c : N) : Decision (py_whitespace c).
Proof. unfold py_whitespace. apply _. Defined.

#[global] Instance py_linebreak_dec (c : N) : Decision (py_linebreak c).
Proof. unfold py_linebreak. apply _. Defined.




(** ** Vulnerability fetcher *)

(** The request body [query_osv] posts. *)
Record osv_payload : Type := OsvPayload {
  payload_name : pystr;
  payload_ecosystem : pystr;
  payload_version : option pystr
}.

(** An HTTP response: its status, and what [r.json()] does: it returns the
    decoded body, or raises when the body is not JSON. *)
Record response : Type := Response {
  status_code : Z;
  r_json : pyresult json
}.

(** [data.get("vulns", [])]: the member as it is when there is one, of
    whatever type; the default only for a missing member.  A value that is
    not a dictionary has no [get]. *)
Definition get_vulns (data : json) : pyresult json :=
  match data with
  | JObj members => Return (default (JArr []) (obj_get (cps "vulns") members))
  | _ => Raise AttributeError
  end.

(** Truth value of [version], a string or [None]. *)
Definition truthy (version : option pystr) : bool :=
  match version with
  | Some (_ :: _) => true
  | _ => false
  end.

(** The statements of [query_osv] inside [try]. *)
Definition query_osv_body (post : osv_payload → pyresult response)
    (payload : osv_payload) : pyresult json :=
  let! r := post payload in
  if bool_decide (status_code r = 200)
  then let! data := r_json r in get_vulns data
  else Return (JArr []).

(** The dictionary [payload] once [if version:] has run. *)
Definition payload_for (package : pystr) (version : option pystr)
    : osv_payload :=
  let payload := OsvPayload package (cps "PyPI") None in
  if truthy version
  then OsvPayload (payload_name payload) (payload_ecosystem payload) version
  else payload.

(** [post] is [requests.post(OSV_API_URL, json=_, timeout=10)]: it raises on
    a transport failure and returns a response otherwise. *)
Definition query_osv (post : osv_payload → pyresult response)
    (package : pystr) (version : option pystr) : pyresult json :=
  try_except (query_osv_body post (payload_for package version)) (JArr []).

(** The request brings back no JSON object: the transport raises, the
    status is not 200, the body is not JSON, or it is JSON but not an
    object. *)
Definition no_object_answer (outcome : pyresult response) : Prop :=
  match outcome with
  | Raise _ => True
  | Return r =>
      status_code r ≠ 200
      ∨ (∃ e, r_json r = Raise e)
      ∨ (∃ data, r_json r = Return data ∧ ∀ members, data ≠ JObj members)
  end.

(** Whenever the request brings back an object with a member ["vulns"]
    under status 200, that member is a list of objects. *)
Definition well_typed_answer (outcome : pyresult response) : Prop :=
  ∀ r members x,
    outcome = Return r →
    status_code r = 200 →
    r_json r = Return (JObj members) →
    obj_get (cps "vulns") members = Some x →
    record_list x.

(** The loop over [as_completed(futures)]: [completed] lists the futures, by
    their position in [futures], in the order in which they finish.  Next
    to the dictionary the loop keeps the keys it has assigned, oldest
    first. *)
Fixpoint collect (futures : list (pyresult json * pystr))
    (completed : list nat) (results : gmap pystr json)
    (written : list pystr)
    : pyresult (gmap pystr json * list pystr) :=
  match completed with
  | [] => Return (results, written)
  | i :: rest =>
      match futures !! i with
      | Some (outcome, pkg) =>
          let! vulns := outcome in
          collect futures rest (<[pkg := vulns]> results) (written ++ [pkg])
      | None => collect futures rest results written
      end
  end.

(** [futures[future]] for the future at position [i]. *)
Definition future_key (futures : list (pyresult json * pystr))
    (i : nat) : pystr :=
  default [] (snd <$> futures !! i).

(** [fetch_all_vulnerabilities] with the log of its assignments.  [net i]
    is the network as the [i]-th submitted task sees it. *)
Definition fetch_all_vulnerabilities_log
    (net : nat → osv_payload → pyresult response) (completed : list nat)
    (packages : list declaration)
    : pyresult (gmap pystr json * list pystr) :=
  let futures :=
    imap (λ i (d : declaration), (query_osv (net i) d.1 d.2, d.1)) packages in
  collect futures completed ∅ [].

Definition fetch_all_vulnerabilities
    (net : nat → osv_payload → pyresult response) (completed : list nat)
    (packages : list declaration) : pyresult (gmap pystr json) :=
  let! r := fetch_all_vulnerabilities_log net completed packages in
  Return r.1.

(** ** Age fetcher *)

(** One entry of ["urls"].  The time stamp is the instant that
    [datetime.fromisoformat] reads from the member ["upload_time_iso_8601"],
    in microseconds since the epoch; [None] when the member is missing or
    does not denote an instant with an offset. *)
Record artifact : Type := Artifact {
  upload_time : option Z
}.

(** The decoded registry answer: its member ["urls"], if it has one. *)
Record pypi_data : Type := PypiData {
  urls : option (list artifact)
}.

Definition microseconds_per_day : Z := 86400 * 1000000.

(** [timedelta.days] of a difference of [us] microseconds. *)
Definition timedelta_days (us : Z) : Z := us `div` microseconds_per_day.

Definition fetch_pypi_age_body (get : pystr → pyresult pypi_data) (now : Z)
    (package : pystr) : pyresult (option Z) :=
  let! data := get package in
  let! files := from_option Return (Raise KeyError) (urls data) in
  let! first := from_option Return (Raise IndexError) (files !! 0%nat) in
  let! upload_date := from_option Return (Raise KeyError) (upload_time first) in
  Return (Some (timedelta_days (now - upload_date))).

(** [get] is [requests.get(url, timeout=10).json()]; [now] is
    [datetime.now(timezone.utc)] in microseconds since the epoch. *)
Definition fetch_pypi_age (get : pystr → pyresult pypi_data) (now : Z)
    (package : pystr) : pyresult (option Z) :=
  try_except (fetch_pypi_age_body get now package) None.

(** The failures of one age lookup: the request or the decoding raises,
    the answer has no ["urls"], the list is empty, or its first entry has no
    readable time stamp. *)
Definition lookup_failed (outcome : pyresult pypi_data) : Prop :=
  match outcome with
  | Raise _ => True
  | Return data =>
      match urls data with
      | None | Some [] => True
      | Some (first :: _) => upload_time first = None
      end
  end.

(** The earliest time stamp among all the entries that carry one. *)
Definition earliest (files : list artifact) : option Z :=
  foldr (λ a acc,
           match upload_time a, acc with
           | Some t, Some m => Some (Z.min t m)
           | Some t, None => Some t
           | None, _ => acc
           end) None files.

(** ** Similarity scorer *)

Definition TOP_PACKAGES : list pystr :=
  cps <$> [ "requests"; "flask"; "django"; "numpy"; "pandas"; "scipy";
            "matplotlib"; "seaborn"; "sqlalchemy"; "fastapi"; "pytest";
            "beautifulsoup4"; "pillow"; "opencv-python"; "tensorflow";
            "torch"; "scikit-learn"; "celery"; "redis"; "uvicorn" ]%string.

Section Similarity.
(** [fuzz.ratio] of the third-party package [thefuzz], and [str.lower]. *)
Variable fuzz_ratio : pystr → pystr → Z.
Variable py_lower : pystr → pystr.

(** The score of [package] against one reference name. *)
Definition score_against (package popular : pystr) : Z :=
  fuzz_ratio (py_lower package) (py_lower popular).

(** The body of the loop of [check_typosquatting]. *)
Definition typo_step (package : pystr) (st : Z * option pystr)
    (popular : pystr) : Z * option pystr :=
  let score := score_against package popular in
  if bool_decide (score > st.1) then (score, Some popular) else st.

Definition scan (package : pystr) (populars : list pystr)
    (st : Z * option pystr) : Z * option pystr :=
  foldl (typo_step package) st populars.

Definition check_typosquatting (package : pystr) : Z * option pystr :=
  scan package TOP_PACKAGES (0, None).

(** The largest score of [package] against the names of [populars], and
    0 when none is positive. *)
Definition max_score (package : pystr) (populars : list pystr) : Z :=
  foldr (λ popular m, Z.max (score_against package popular) m) 0 populars.

(** [popular] is the first name of [populars] whose score is [best], and
    no name of [populars] scores more. *)
Definition first_best (package : pystr) (populars : list pystr)
    (best : Z) (popular : pystr) : Prop :=
  ∃ before after,
    populars = before ++ popular :: after
    ∧ score_against package popular = best
    ∧ Forall (λ q, score_against package q < best) before
    ∧ Forall (λ q, score_against package q ≤ best) after.

(** What the loop of [check_typosquatting] knows after the names [seen]. *)
Definition scanned (package : pystr) (seen : list pystr)
    (st : Z * option pystr) : Prop :=
  match st.2 with
  | Some popular => 0 < st.1 ∧ first_best package seen st.1 popular
  | None => st.1 = 0 ∧ Forall (λ q, score_against package q ≤ 0) seen
  end.
End Similarity.

(** A stand-in for the two library functions, for running the program on
    ASCII names.  [ratio] is [2 * M / T] in percent, rounded to the nearest
    integer, where [M] is the length of a longest common subsequence and
    [T] the sum of the two lengths.  The library rounds a floating-point
    product instead: the two agree unless [200 * M / T] lies exactly
    halfway between two integers, where this stand-in rounds to even.
    [lower] maps the letters A to Z only.  No theorem about the program
    depends on the stand-in; the examples use it at names for which no
    score that decides the result is such a half. *)
Module Fuzz.
(** One row of the longest-common-subsequence table: [up] is the previous
    row from the current column on, [diag] the previous row one column to
    the left, [left] the current row one column to the left. *)
Fixpoint lcs_row (x : N) (b : pystr) (up : list nat) (diag left : nat)
    : list nat :=
  match b, up with
  | y :: b', u :: up' =>
      let cur := if decide (x = y) then S diag else Nat.max u left in
      cur :: lcs_row x b' up' u cur
  | _, _ => []
  end.

Definition lcs (a b : pystr) : nat :=
  List.last (foldl (λ row x, lcs_row x b row 0%nat 0%nat)
                   (replicate (length b) 0%nat) a) 0%nat.

Definition round_half_even (num den : Z) : Z :=
  let q := num `div` den in
  let r := num `mod` den in
  if bool_decide (2 * r < den) then q
  else if bool_decide (2 * r > den) then q + 1
  else if Z.even q then q else q + 1.

Definition ratio (a b : pystr) : Z :=
  let total := Z.of_nat (length a + length b) in
  if bool_decide (total = 0) then 100
  else round_half_even (200 * Z.of_nat (lcs a b)) total.

Definition lower_char (c : N) : N :=
  if ((65 <=? c) && (c <=? 90))%N then (c + 32)%N else c.

Definition lower (s : pystr) : pystr := lower_char <$> s.
End Fuzz.

(** ** Row loop *)

(** [sep.join(xs)]. *)
Fixpoint join (sep : pystr) (xs : list pystr) : pystr :=
  match xs with
  | [] => []
  | [x] => x
  | x :: rest => x ++ sep ++ join sep rest
  end.

(** One dictionary appended to [rows]; the HTML of ["Trust Score Bar"] is
    left out. *)
Record row : Type := Row {
  Package : pystr;
  Version : pystr;
  Vulnerabilities : nat;
  Similarity : Z;
  ClosestPopularPackage : option pystr;
  PackageAge : option Z;
  TrustScore : Z;
  ScoreExplanation : pystr
}.

(** Everything outside the program that one run depends on: the two
    services as the [i]-th request sees them, the order in which the
    submitted fetches finish, and the clock at the [i]-th age lookup. *)
Record world : Type := World {
  osv_post : nat → osv_payload → pyresult response;
  completed : list nat;
  pypi_get : nat → pystr → pyresult pypi_data;
  clock : nat → Z
}.

Section Pipeline.
Variable py_repr : json → pystr.
Variable fuzz_ratio : pystr → pystr → Z.
Variable py_lower : pystr → pystr.
Variable w : world.

(** [ver or "Any"]. *)
Definition version_or_any (ver : option pystr) : pystr :=
  if truthy ver then default [] ver else cps "Any".

(** [age is not None and age < 30]. *)
Definition is_new_of (age : option Z) : bool :=
  match age with
  | Some a => bool_decide (a < 30)
  | None => false
  end.

(** The body of [for pkg, ver in packages], for the [i]-th package.  The
    score is computed first, then the dictionary is built, its entries in
    the order in which they are written. *)
Definition make_row (i : nat) (vuln_data : gmap pystr json)
    (d : declaration) : pyresult row :=
  let pkg := d.1 in
  let ver := d.2 in
  let vulns := default (JArr []) (vuln_data !! pkg) in
  let! age := fetch_pypi_age (pypi_get w i) (clock w i) pkg in
  let st := check_typosquatting fuzz_ratio py_lower pkg in
  let similarity := st.1 in
  let target := st.2 in
  let is_new := is_new_of age in
  let! score := calculate_trust_score_py py_repr vulns similarity is_new in
  let! count := py_len vulns in
  let! lines := score_breakdown_py py_repr vulns similarity is_new in
  Return {| Package := pkg;
            Version := version_or_any ver;
            Vulnerabilities := count;
            Similarity := similarity;
            ClosestPopularPackage := target;
            PackageAge := age;
            TrustScore := score;
            ScoreExplanation := join (cps "<br>") lines |}.

Fixpoint build_rows (i : nat) (vuln_data : gmap pystr json)
    (todo : list declaration) (rows : list row) : pyresult (list row) :=
  match todo with
  | [] => Return rows
  | d :: rest =>
      let! r := make_row i vuln_data d in
      build_rows (S i) vuln_data rest (rows ++ [r])
  end.

(** [r] is the row that the loop body builds for the declaration [d]:
    every column but the age is determined by [d] and [vuln_data], and
    the count, the score and its explanation are those of the entry of
    [d] in [vuln_data] and of the row's own similarity and age. *)
Definition row_for (vuln_data : gmap pystr json) (d : declaration)
    (r : row) : Prop :=
  let vulns := default (JArr []) (vuln_data !! d.1) in
  let is_new := is_new_of (PackageAge r) in
  Package r = d.1
  ∧ Version r = version_or_any d.2
  ∧ py_len vulns = Return (Vulnerabilities r)
  ∧ (Similarity r, ClosestPopularPackage r)
    = check_typosquatting fuzz_ratio py_lower d.1
  ∧ calculate_trust_score_py py_repr vulns (Similarity r) is_new
    = Return (TrustScore r)
  ∧ ∃ lines,
      score_breakdown_py py_repr vulns (Similarity r) is_new = Return lines
      ∧ ScoreExplanation r = join (cps "<br>") lines.

(** The script from [parse_requirements] to the end of the row loop. *)
Definition analyse (file_content : pystr) : pyresult (list row) :=
  let! packages := parse_requirements file_content in
  let! vuln_data :=
    fetch_all_vulnerabilities (osv_post w) (completed w) packages in
  build_rows 0 vuln_data packages [].

(** Every request of the run is answered as the service documents. *)
Definition well_typed_answers : Prop :=
  ∀ i payload, well_typed_answer (osv_post w i payload).
End Pipeline.

(** ** Well-formed requirement lines *)

(** The characters the comparator tokens are made of: [<], [=], [>], [~]. *)
Definition comparator_char (c : N) : bool :=
  ((c =? 60) || (c =? 61) || (c =? 62) || (c =? 126))%N.

(** A character that is neither white space nor part of a comparator. *)
Definition name_char (c : N) : bool :=
  negb (is_space c) && negb (comparator_char c).

(** ** Trust bar *)

(** [str(n)] for an integer, as an f-string prints it. *)
Definition py_int_str (n : Z) : pystr :=
  cps (NilZero.string_of_int (Z.to_int n)).

(** The [if]/[elif] chain of [trust_bar]. *)
Definition bar_color (score : Z) : pystr :=
  if bool_decide (score >= 80) then cps "#22c55e"
  else if bool_decide (score >= 60) then cps "#eab308"
  else if bool_decide (score >= 40) then cps "#f97316"
  else cps "#ef4444".

Definition trust_bar (score : Z) : pystr :=
  let color := bar_color score in
  cps "<div style='width:100%'>"
  ++ cps "<div style='background:#1f2937;border-radius:6px;height:12px'>"
  ++ (cps "<div style='width:" ++ py_int_str score ++ cps "%;background:"
      ++ color ++ cps ";height:12px;border-radius:6px'></div>")
  ++ cps "</div>"
  ++ (cps "<div style='font-size:12px;text-align:right;color:#9ca3af'>"
      ++ py_int_str score ++ cps "%</div>")
  ++ cps "</div>".

(** ** Overall risk distribution *)

(** The four counts and [total]. *)
Record distribution : Type := Distribution {
  safe : nat;
  review : nat;
  risky : nat;
  danger : nat;
  total : nat
}.

(** The counts over the column ["Trust Score"] of the frame built from
    [rows].  A frame built from an empty list has no columns, so selecting
    the column raises [KeyError]; [(mask).sum()] counts the rows of the
    mask. *)
Definition risk_distribution (rows : list row) : pyresult distribution :=
  match rows with
  | [] => Raise KeyError
  | _ =>
      let scores := TrustScore <$> rows in
      Return {|
        safe := length (filter (λ s, s >= 80) scores);
        review := length (filter (λ s, s >= 60 ∧ s < 80) scores);
        risky := length (filter (λ s, s >= 40 ∧ s < 60) scores);
        danger := length (filter (λ s, s < 40) scores);
        total := length rows
      |}
  end.

(** ** Vulnerability details *)

(** U+2014, the dash of the expander texts. *)
Definition em_dash : N := 8212%N.

Section Details.
Variable py_repr : json → pystr.

(** The markdown line of one vulnerability record. *)
Definition detail_line (v : vuln) : pystr :=
  cps "**" ++ py_str py_repr (default (JStr (cps "N/A")) (vid v))
  ++ cps "** " ++ [em_dash] ++ cps " "
  ++ py_str py_repr (default (JStr (cps "No description")) (summary v)).

(** The label of the expander of a row. *)
Definition detail_title (r : row) : pystr :=
  Package r ++ cps " " ++ [em_dash] ++ cps " "
  ++ py_int_str (Z.of_nat (Vulnerabilities r)) ++ cps " vulnerabilities".

(** The lines written for the elements of one entry: [v.get] is called on
    each of them. *)
Fixpoint detail_lines (items : list json) : pyresult (list pystr) :=
  match items with
  | [] => Return []
  | v :: rest =>
      let! r := as_record v in
      let! lines := detail_lines rest in
      Return (detail_line r :: lines)
  end.

(** The loop under "Vulnerability Details": the expanders it opens, each
    with its label and the lines written into it. *)
Fixpoint vulnerability_details (vuln_data : gmap pystr json)
    (rows : list row) : pyresult (list (pystr * list pystr)) :=
  match rows with
  | [] => Return []
  | r :: rest =>
      if bool_decide (Vulnerabilities r = 0%nat)
      then vulnerability_details vuln_data rest
      else
        let! items := py_iter (default (JArr []) (vuln_data !! Package r)) in
        let! lines := detail_lines items in
        let! more := vulnerability_details vuln_data rest in
        Return ((detail_title r, lines) :: more)
  end.
End Details.

(** ** The script *)

(** What one run computes after the upload: the rows, the risk
    distribution and the vulnerability details. *)
Record report : Type := Report {
  report_rows : list row;
  report_distribution : distribution;
  report_details : list (pystr * list pystr)
}.

Section Script.
Variable py_repr : json → pystr.
Variable fuzz_ratio : pystr → pystr → Z.
Variable py_lower : pystr → pystr.
Variable w : world.

(** The statements under [if uploaded_file:], up to the details. *)
Definition script (file_content : pystr) : pyresult report :=
  let! packages := parse_requirements file_content in
  let! vuln_data :=
    fetch_all_vulnerabilities (osv_post w) (completed w) packages in
  let! rows := build_rows py_repr fuzz_ratio py_lower w 0 vuln_data packages [] in
  let! dist := risk_distribution rows in
  let! details := vulnerability_details py_repr vuln_data rows in
  Return {| report_rows := rows;
            report_distribution := dist;
            report_details := details |}.
End Script.

(** * Properties *)

(** ** Strings *)

Lemma startswith_spec (p s : pystr) :
  startswith p s = true ↔ ∃ r, s = p ++ r.
Proof.
  revert s. induction p as [|a p IH]; intros s; simpl.
  - split; [intros _; by exists s | done].
  - destruct s as [|b s].
    + split; [done | intros [r Hr]; discriminate].
    + destruct (decide (a = b)) as [->|Hne].
      * rewrite IH. split; intros [r Hr]; exists r; simpl in *; congruence.
      * split; [done | intros [r Hr]; simpl in Hr; congruence].
Qed.

Lemma startswith_app (p r : pystr) : startswith p (p ++ r) = true.
Proof. apply startswith_spec. by exists r. Qed.

(** [p in s] holds exactly when [s] can be cut as [l ++ p ++ r]. *)
Lemma str_in_spec (p s : pystr) :
  str_in p s = true ↔ ∃ l r, s = l ++ p ++ r.
Proof.
  induction s as [|c s IH]; simpl.
  - rewrite orb_false_r, startswith_spec. split.
    + intros [r Hr]. by exists [], r.
    + intros (l & r & Hs). destruct l; simpl in Hs; [by exists r | discriminate].
  - rewrite orb_true_iff, startswith_spec, IH. split.
    + intros [[r Hr] | (l & r & Hs)].
      * by exists [], r.
      * exists (c :: l), r. simpl. congruence.
    + intros (l & r & Hs). destruct l as [|c' l]; simpl in Hs.
      * left. by exists r.
      * right. exists l, r. congruence.
Qed.

Lemma str_in_false (p s : pystr) :
  str_in p s = false ↔ ¬ ∃ l r, s = l ++ p ++ r.
Proof. rewrite <- str_in_spec. destruct (str_in p s); naive_solver. Qed.

(** ** Trust score *)

Section TrustScoreFacts.
Variable py_repr : json → pystr.

Lemma existsb_critical (vulns : list vuln) :
  existsb (critical py_repr) vulns = true ↔ some_critical py_repr vulns.
Proof.
  unfold some_critical, critical. rewrite existsb_exists.
  setoid_rewrite str_in_spec. setoid_rewrite list_elem_of_In. done.
Qed.

Lemma score_before_floor_deductions vulns similarity is_new :
  score_before_floor py_repr vulns similarity is_new
  = 100 - sum_list (deductions_applied py_repr vulns similarity is_new).
Proof.
  unfold score_before_floor, deductions_applied, sum_list.
  destruct (existsb _ vulns), (bool_decide _), is_new; reflexivity.
Qed.

Lemma score_before_floor_range vulns similarity is_new :
  20 ≤ score_before_floor py_repr vulns similarity is_new ≤ 100.
Proof.
  unfold score_before_floor.
  destruct (existsb _ vulns), (bool_decide _), is_new; lia.
Qed.

Lemma severity_text_cases (v : vuln) :
  severity_text py_repr v
  = match severity v with
    | Some (JStr s) => s
    | Some x => py_repr x
    | None => []
    end.
Proof.
  unfold severity_text, py_str. by destruct (severity v) as [[]|].
Qed.

(** C1: [calculate_trust_score] returns [max(0, 100 - sum of the
    deductions)], where the deductions are 20 when the severity member of
    some record contains ["CRITICAL"] (the text of the member is the
    string itself, or what [str] makes of another value; a missing member
    counts as the empty string), 50 when the similarity is at least 90 and
    10 when [is_new] holds; the result lies in [0, 100]. *)
Theorem calculate_trust_score_spec vulns similarity is_new :
  let critical_found :=
    ∃ v, v ∈ vulns
         ∧ ∃ l r,
             match severity v with
             | Some (JStr s) => s
             | Some x => py_repr x
             | None => []
             end = l ++ cps "CRITICAL" ++ r in
  ∃ d_vuln d_sim d_new,
    (critical_found ∧ d_vuln = 20 ∨ ¬ critical_found ∧ d_vuln = 0)
    ∧ (90 ≤ similarity ∧ d_sim = 50 ∨ similarity < 90 ∧ d_sim = 0)
    ∧ (is_new = true ∧ d_new = 10 ∨ is_new = false ∧ d_new = 0)
    ∧ calculate_trust_score py_repr vulns similarity is_new
      = Z.max 0 (100 - (d_vuln + d_sim + d_new))
    ∧ 0 ≤ calculate_trust_score py_repr vulns similarity is_new ≤ 100.
Proof.
  intros critical_found.
  assert (Hc : existsb (critical py_repr) vulns = true ↔ critical_found).
  { rewrite existsb_critical. unfold some_critical, critical_found.
    by setoid_rewrite severity_text_cases. }
  unfold calculate_trust_score, score_before_floor.
  exists (if existsb (critical py_repr) vulns then 20 else 0),
         (if bool_decide (similarity >= 90) then 50 else 0),
         (if is_new then 10 else 0).
  destruct (existsb _ vulns) eqn:Hv; case_bool_decide; destruct is_new;
    (split; [first [left; split; [by apply Hc | done]
                   | right; split; [rewrite <- Hc; congruence | done]] |]);
    (split; [first [left; split; [lia | done] | right; split; [lia | done]] |]);
    (split; [first [left; done | right; done] |]);
    lia.
Qed.

(** C10: the score is never below 20, so the floor of [max(score, 0)]
    never decides, and no score lies strictly between 0 and 20. *)
Theorem calculate_trust_score_at_least_20 vulns similarity is_new :
  20 ≤ calculate_trust_score py_repr vulns similarity is_new
  ∧ calculate_trust_score py_repr vulns similarity is_new
    = score_before_floor py_repr vulns similarity is_new
  ∧ ¬ (0 < calculate_trust_score py_repr vulns similarity is_new < 20)
  ∧ calculate_trust_score py_repr vulns similarity is_new
    ∈ [100; 90; 80; 70; 50; 40; 30; 20].
Proof.
  unfold calculate_trust_score.
  pose proof (score_before_floor_range vulns similarity is_new) as Hr.
  rewrite Z.max_l by lia. split; [lia|]. split; [done|]. split; [lia|].
  clear Hr. unfold score_before_floor.
  destruct (existsb _ vulns), (bool_decide _), is_new;
    apply list_elem_of_In; cbv;
    repeat (first [left; reflexivity | right]).
Qed.

(** C2: the conditions that subtract from the score are the conditions
    that write explanation lines: the lines other than the sentinel are
    the lines of the applied deductions, one each and in the order
    vulnerability, similarity, age; without any deduction the explanation
    is the sentinel line alone. *)
Theorem score_breakdown_consistent vulns similarity is_new :
  let applied := deductions_applied py_repr vulns similarity is_new in
  let lines := score_breakdown py_repr vulns similarity is_new in
  calculate_trust_score py_repr vulns similarity is_new
  = Z.max (100 - sum_list applied) 0
  ∧ non_sentinel lines = line_of_deduction <$> applied
  ∧ length (non_sentinel lines) = length applied
  ∧ applied = filter (λ d, d ∈ applied) [20; 50; 10]
  ∧ lines = match applied with
            | [] => [no_risk_factors]
            | _ => line_of_deduction <$> applied
            end.
Proof.
  simpl. unfold calculate_trust_score.
  rewrite score_before_floor_deductions.
  unfold deductions_applied, score_breakdown.
  destruct (existsb _ vulns), (bool_decide _), is_new;
    repeat split; vm_compute; reflexivity.
Qed.
End TrustScoreFacts.

(** ** Manifest parser *)

Lemma startswith_drop (p s : pystr) :
  startswith p s = true → s = p ++ drop (length p) s.
Proof.
  intros [r ->]%startswith_spec. by rewrite drop_app_length.
Qed.

Lemma split_first_Some (sep s l r : pystr) :
  split_first sep s = Some (l, r) → leftmost_split sep s l r.
Proof.
  revert l. induction s as [|c s IH]; intros l.
  - simpl. destruct (startswith sep []) eqn:Hp; [|done].
    intros [= <- <-]. split; [by apply startswith_drop | simpl; lia].
  - cbn [split_first]. destruct (startswith sep (c :: s)) eqn:Hp.
    + intros [= <- <-]. split; [by apply startswith_drop | simpl; lia].
    + destruct (split_first sep s) as [[l0 r0]|] eqn:Hs; [|done].
      simpl. intros [= <- <-]. destruct (IH l0 eq_refl) as [Heq Hmin].
      split; [simpl; by rewrite Heq|].
      intros l' r' Hl'. destruct l' as [|c' l'].
      * simpl in Hl'. rewrite Hl', startswith_app in Hp. done.
      * simpl in Hl'. injection Hl' as <- Hl'.
        specialize (Hmin _ _ Hl'). simpl. lia.
Qed.

Lemma split_first_in (sep s : pystr) :
  str_in sep s = true → is_Some (split_first sep s).
Proof.
  induction s as [|c s IH]; cbn [str_in split_first].
  - rewrite orb_false_r. intros ->. eauto.
  - destruct (startswith sep (c :: s)); [eauto|]. simpl. intros H.
    destruct (IH H) as [[l r] ->]. eauto.
Qed.

(** The [for]/[else] statement never raises on the tokens of the program,
    and computes [declaration_of]. *)
Lemma parse_line_declaration_of (line : pystr) :
  parse_line line = Return (declaration_of line).
Proof.
  unfold parse_line, declaration_of, first_comparator.
  assert (Hne : Forall (λ sep : pystr, sep ≠ []) comparators)
    by (repeat constructor; done).
  induction Hne as [|sep seps Hsep _ IH]; [done|].
  cbn [parse_with List.find]. destruct (str_in sep line) eqn:Hin; [|done].
  destruct (split_first_in _ _ Hin) as [[l r] Hs].
  unfold split1. rewrite Hs. by destruct sep.
Qed.

Lemma skipped_false (line : pystr) :
  skipped line = false ↔ line ≠ [] ∧ head line ≠ Some 35%N.
Proof.
  unfold skipped. rewrite orb_false_iff, bool_decide_eq_false.
  destruct line as [|c line]; [by intuition|].
  change (cps "#") with [35%N]. cbn [startswith head].
  destruct (decide (35%N = c)) as [<-|Hc].
  - split; [intros [_ ?]; discriminate | intros [_ ?]; done].
  - split; [intros _; split; [done | congruence] | done].
Qed.

Lemma parse_lines_spec (lines : list pystr) (packages : list declaration) :
  parse_lines lines packages
  = Return (packages ++ (declaration_of <$>
              filter (λ line, line ≠ [] ∧ head line ≠ Some 35%N)
                     (strip <$> lines))).
Proof.
  revert packages. induction lines as [|line rest IH]; intros packages.
  - simpl. by rewrite app_nil_r.
  - cbn [parse_lines fmap list_fmap]. rewrite filter_cons.
    destruct (skipped (strip line)) eqn:Hsk.
    + rewrite decide_False; [apply IH|].
      rewrite <- skipped_false. congruence.
    + rewrite decide_True by by apply skipped_false.
      rewrite parse_line_declaration_of. cbn [bind].
      rewrite IH, <- app_assoc. done.
Qed.

Lemma parse_requirements_spec (file_content : pystr) :
  parse_requirements file_content
  = Return (declaration_of <$> kept_lines file_content).
Proof. unfold parse_requirements. by rewrite parse_lines_spec. Qed.

Lemma first_comparator_Some (line sep : pystr) :
  first_comparator line = Some sep →
  ∃ before after,
    comparators = before ++ sep :: after
    ∧ str_in sep line = true
    ∧ Forall (λ s, str_in s line = false) before.
Proof.
  unfold first_comparator. generalize comparators.
  induction l as [|s l IH]; [done|]. simpl.
  destruct (str_in s line) eqn:Hs.
  - intros [= ->]. by exists [], l.
  - intros (before & after & -> & Hin & Hall)%IH.
    exists (s :: before), after. repeat split; [done|by constructor].
Qed.

Lemma first_comparator_None (line : pystr) :
  first_comparator line = None →
  Forall (λ s, str_in s line = false) comparators.
Proof.
  unfold first_comparator. generalize comparators.
  induction l as [|s l IH]; [constructor|]. simpl.
  destruct (str_in s line) eqn:Hs; [done|]. intros H. constructor; auto.
Qed.

Lemma lstrip_head (s : pystr) (c : N) :
  head (lstrip s) = Some c → is_space c = false.
Proof.
  induction s as [|a s IH]; [done|]. simpl.
  destruct (is_space a) eqn:Ha; [done|]. simpl. congruence.
Qed.

Lemma lstrip_app_nonspace (u v : pystr) (c : N) :
  is_space c = false → lstrip (u ++ c :: v) = lstrip u ++ c :: v.
Proof.
  intros Hc. induction u as [|a u IH]; simpl.
  - by rewrite Hc.
  - by destruct (is_space a).
Qed.

Lemma rstrip_cons_nonspace (c : N) (s : pystr) :
  is_space c = false → rstrip (c :: s) = c :: rstrip s.
Proof.
  intros Hc. unfold rstrip.
  rewrite reverse_cons, lstrip_app_nonspace by done.
  by rewrite reverse_app.
Qed.

Lemma rstrip_last (s : pystr) (c : N) :
  last (rstrip s) = Some c → is_space c = false.
Proof. unfold rstrip. rewrite last_reverse. apply lstrip_head. Qed.

Lemma strip_cons_nonspace (c : N) (s : pystr) :
  is_space c = false → strip (c :: s) = c :: rstrip s.
Proof.
  intros Hc. unfold strip. simpl. rewrite Hc. by apply rstrip_cons_nonspace.
Qed.

(** What [strip] returns has no white space at either end. *)
Lemma strip_trimmed (s : pystr) : trimmed (strip s).
Proof.
  split; intros c Hc.
  - unfold strip in Hc. destruct (lstrip s) as [|a t] eqn:Hl.
    + done.
    + assert (Ha : is_space a = false) by (apply (lstrip_head s); by rewrite Hl).
      rewrite rstrip_cons_nonspace in Hc by done. simpl in Hc. congruence.
  - by apply rstrip_last in Hc.
Qed.

(** A kept line is a stripped line of the manifest and is not empty. *)
Lemma kept_lines_stripped (file_content line : pystr) :
  line ∈ kept_lines file_content →
  line ≠ [] ∧ head line ≠ Some 35%N ∧ trimmed line.
Proof.
  unfold kept_lines. rewrite list_elem_of_filter, list_elem_of_fmap.
  intros [[Hne Hh] (raw & -> & _)]. auto using strip_trimmed.
Qed.

Lemma declaration_of_name (line : pystr) :
  line ≠ [] → trimmed line →
  trimmed (declaration_of line).1
  ∧ ((declaration_of line).1 = [] ↔
     ∃ sep, first_comparator line = Some sep ∧ startswith sep line = true).
Proof.
  intros Hne Htr. unfold declaration_of.
  destruct (first_comparator line) as [sep|] eqn:Hf; [|naive_solver].
  pose proof Hf as (_ & _ & _ & Hin & _)%first_comparator_Some.
  destruct (split_first_in _ _ Hin) as [[l r] Hs]. rewrite Hs. simpl.
  split; [apply strip_trimmed|].
  apply split_first_Some in Hs as [Heq Hmin].
  destruct l as [|c l].
  - split; [intros _|done]. exists sep. split; [done|].
    simpl in Heq. rewrite Heq. apply startswith_app.
  - assert (Hc : is_space c = false).
    { destruct Htr as [Hh _]. apply Hh. by rewrite Heq. }
    rewrite strip_cons_nonspace by done. split; [done|].
    intros (sep' & [= <-] & [r' Hr']%startswith_spec).
    specialize (Hmin [] r' Hr'). simpl in Hmin. lia.
Qed.

(** C9, as the code has it: every declaration has a trimmed name, and the
    name is empty exactly when the stripped line begins with the token at
    which it is split. *)
Theorem parse_requirements_names (file_content : pystr) :
  ∃ packages,
    parse_requirements file_content = Return packages
    ∧ Forall2 (λ line (d : declaration),
                 trimmed d.1
                 ∧ (d.1 = [] ↔
                    ∃ sep, first_comparator line = Some sep
                           ∧ startswith sep line = true))
              (kept_lines file_content) packages.
Proof.
  eexists. split; [apply parse_requirements_spec|].
  apply Forall2_fmap_r, Forall_Forall2_diag, Forall_forall.
  intros line Hl%kept_lines_stripped.
  apply declaration_of_name; tauto.
Qed.

(** C9 fails as stated: the line [==1.0] is kept, and its name is empty. *)
Lemma parse_requirements_empty_name :
  kept_lines (cps "==1.0") = [cps "==1.0"]
  ∧ parse_requirements (cps "==1.0") = Return [([], Some (cps "1.0"))]
  ∧ ¬ (∀ d : declaration,
         parse_requirements (cps "==1.0") = Return [d] → d.1 ≠ []).
Proof.
  split; [by vm_compute|]. split; [by vm_compute|].
  intros H. by apply (H ([], Some (cps "1.0"))).
Qed.

(** *** The parser's helpers against the specification's notions *)














(** ** Vulnerability fetcher *)

Lemma try_except_returns {A} (body : pyresult A) (handler : A) :
  ∃ a, try_except body handler = Return a.
Proof. destruct body; simpl; eauto. Qed.

Lemma query_osv_returns post package version :
  ∃ vulns, query_osv post package version = Return vulns.
Proof. apply try_except_returns. Qed.

Lemma query_osv_no_object post package version :
  no_object_answer (post (payload_for package version)) →
  query_osv post package version = Return (JArr []).
Proof.
  unfold query_osv, query_osv_body, no_object_answer.
  destruct (post _) as [r|e]; [|done]. cbn [bind].
  intros [Hst | [[e He] | (data & Hd & Hno)]].
  - by rewrite bool_decide_eq_false_2.
  - case_bool_decide; [|done]. by rewrite He.
  - case_bool_decide; [|done]. rewrite Hd. cbn [bind].
    destruct data; try done. by destruct (Hno members).
Qed.

(** What [query_osv] returns is the empty list or the member ["vulns"] of
    an object answered under status 200. *)
Lemma query_osv_cases post package version x :
  query_osv post package version = Return x →
  x = JArr []
  ∨ ∃ r members,
      post (payload_for package version) = Return r
      ∧ status_code r = 200
      ∧ r_json r = Return (JObj members)
      ∧ obj_get (cps "vulns") members = Some x.
Proof.
  unfold query_osv, query_osv_body.
  destruct (post _) as [r|e] eqn:Hp; cbn [bind try_except];
    [|intros [= <-]; by left].
  case_bool_decide as Hst; cbn [try_except]; [|intros [= <-]; by left].
  destruct (r_json r) as [data|e] eqn:Hj; cbn [bind try_except];
    [|intros [= <-]; by left].
  destruct data; cbn [get_vulns try_except]; try (intros [= <-]; by left).
  destruct (obj_get (cps "vulns") members) as [y|] eqn:Hg; cbn [default];
    intros [= <-]; [|by left].
  right. by exists r, members.
Qed.

Lemma query_osv_well_typed post package version x :
  well_typed_answer (post (payload_for package version)) →
  query_osv post package version = Return x →
  record_list x.
Proof.
  intros Hwt [-> | (r & members & Hp & Hst & Hj & Hg)]%query_osv_cases.
  - by exists [].
  - by eapply Hwt.
Qed.

Lemma collect_spec futures completed results written :
  Forall (λ f : pyresult json * pystr, ∃ v, f.1 = Return v) futures →
  Forall (λ i, (i < length futures)%nat) completed →
  ∃ results',
    collect futures completed results written
    = Return (results', written ++ (future_key futures <$> completed))
    ∧ dom results'
      = dom results ∪ list_to_set (future_key futures <$> completed)
    ∧ ∀ k v, results' !! k = Some v →
        results !! k = Some v
        ∨ ∃ i, i ∈ completed ∧ futures !! i = Some (Return v, k).
Proof.
  intros Hret Hlt. revert results written.
  induction Hlt as [|i rest Hi _ IH]; intros results written.
  - exists results. simpl. rewrite app_nil_r. split; [done|].
    split; [set_solver | auto].
  - apply lookup_lt_is_Some_2 in Hi as [[o pkg] Hf].
    destruct (Forall_lookup_1 _ _ _ _ Hret Hf) as [v Hv]. simpl in Hv. subst o.
    destruct (IH (<[pkg:=v]> results) (written ++ [pkg]))
      as (results' & Hc & Hdom & Hval).
    assert (Hk : future_key futures i = pkg) by (unfold future_key; by rewrite Hf).
    exists results'. cbn [collect]. rewrite Hf. cbn [bind].
    rewrite Hc, fmap_cons, Hk, <- app_assoc. split; [done|]. split.
    + rewrite Hdom, dom_insert_L. set_solver.
    + intros k v' [Hin | (j & Hj & Hfj)]%Hval.
      * apply lookup_insert_Some in Hin as [[<- <-] | [_ Hin]]; [|by left].
        right. exists i. split; [by left | done].
      * right. exists j. split; [by right | done].
Qed.

Lemma future_key_imap {A} (f : nat → A → pyresult json) (g : A → pystr)
    (l : list A) :
  future_key (imap (λ i a, (f i a, g a)) l) <$> seq 0 (length l) = g <$> l.
Proof.
  apply list_eq. intros i. rewrite !list_lookup_fmap.
  destruct (decide (i < length l)%nat) as [Hi|Hi].
  - rewrite lookup_seq_lt by done. simpl. unfold future_key.
    rewrite list_lookup_imap.
    destruct (lookup_lt_is_Some_2 l i Hi) as [a ->]. done.
  - rewrite lookup_seq_ge by lia. by rewrite lookup_ge_None_2 by lia.
Qed.

(** C8, as the code has it: when every submitted fetch finishes once, the
    dictionary is assigned once per fetch (so once per key exactly when no
    name is declared twice), its keys are the declared names, every entry is
    the answer of a fetch for that name, and it is returned only with all
    these assignments made. *)
Theorem fetch_all_vulnerabilities_writes net completed
    (packages : list declaration) :
  completed ≡ₚ seq 0 (length packages) →
  ∃ results written,
    fetch_all_vulnerabilities_log net completed packages
    = Return (results, written)
    ∧ fetch_all_vulnerabilities net completed packages = Return results
    ∧ written ≡ₚ packages.*1
    ∧ (NoDup packages.*1 ↔ NoDup written)
    ∧ dom results = list_to_set packages.*1
    ∧ ∀ pkg vulns, results !! pkg = Some vulns →
        ∃ i ver, packages !! i = Some (pkg, ver)
                 ∧ query_osv (net i) pkg ver = Return vulns.
Proof.
  intros Hperm. unfold fetch_all_vulnerabilities, fetch_all_vulnerabilities_log.
  set (futures := imap _ packages).
  destruct (collect_spec futures completed ∅ []) as (results & Hc & Hdom & Hval).
  - apply Forall_lookup_2. intros i [o k]. unfold futures.
    rewrite list_lookup_imap. destruct (packages !! i) as [d|]; [|done].
    simpl. intros [= <- <-]. apply query_osv_returns.
  - rewrite Hperm. apply Forall_forall. intros i Hi%elem_of_seq.
    unfold futures. rewrite length_imap. lia.
  - assert (Hkeys : future_key futures <$> completed ≡ₚ packages.*1).
    { rewrite Hperm. unfold futures. by rewrite future_key_imap. }
    exists results, (future_key futures <$> completed).
    rewrite Hc. simpl. split; [done|]. split; [done|]. split; [done|].
    split; [by rewrite Hkeys|]. split.
    + rewrite Hdom, dom_empty_L, Hkeys. set_solver.
    + intros pkg vulns [Hin | (i & _ & Hf)]%Hval; [by rewrite lookup_empty in Hin|].
      unfold futures in Hf. rewrite list_lookup_imap in Hf.
      destruct (packages !! i) as [[pkg' ver]|] eqn:Hp; [|done].
      simpl in Hf. injection Hf as Hq <-. by exists i, ver.
Qed.

(** C8 fails as stated: a name declared twice is assigned twice. *)
Lemma fetch_all_vulnerabilities_duplicate_key :
  ∃ results,
    fetch_all_vulnerabilities_log (λ _ _, Raise RequestException) [0; 1]%nat
      [(cps "a", Some (cps "1")); (cps "a", Some (cps "2"))]
    = Return (results, [cps "a"; cps "a"])
    ∧ dom results = {[ cps "a" ]}
    ∧ ¬ NoDup [cps "a"; cps "a"].
Proof.
  eexists. split; [reflexivity|]. split.
  - rewrite !dom_insert_L, dom_empty_L. set_solver.
  - rewrite NoDup_cons. intros [Hn _]. apply Hn. by left.
Qed.

Lemma fetch_all_vulnerabilities_writes_witness :
  ∃ results written,
    fetch_all_vulnerabilities_log (λ _ _, Raise RequestException) [1; 0]%nat
      [(cps "flask", None); (cps "numpy", Some (cps "1.0"))]
    = Return (results, written)
    ∧ written ≡ₚ [cps "flask"; cps "numpy"]
    ∧ dom results = list_to_set [cps "flask"; cps "numpy"].
Proof.
  destruct (fetch_all_vulnerabilities_writes (λ _ _, Raise RequestException)
              [1; 0]%nat [(cps "flask", None); (cps "numpy", Some (cps "1.0"))])
    as (results & written & Hlog & _ & Hw & _ & Hdom & _).
  - simpl. apply perm_swap.
  - exists results, written. split; [exact Hlog|]. split; [exact Hw | exact Hdom].
Defined.

Lemma collect_total (P : json → Prop) futures completed results written :
  Forall (λ f : pyresult json * pystr, ∃ v, f.1 = Return v ∧ P v)
         futures →
  map_Forall (λ _, P) results →
  ∃ results' written',
    collect futures completed results written = Return (results', written')
    ∧ map_Forall (λ _, P) results'.
Proof.
  intros Hret. revert results written.
  induction completed as [|i rest IH]; intros results written Hres.
  - by exists results, written.
  - cbn [collect]. destruct (futures !! i) as [[o pkg]|] eqn:Hf; [|by apply IH].
    destruct (Forall_lookup_1 _ _ _ _ Hret Hf) as (v & Hv & HP).
    simpl in Hv. subst o. cbn [bind]. apply IH. by apply map_Forall_insert_2.
Qed.

(** Whatever the order of completion, the dispatcher returns a dictionary,
    and a property of every answer is a property of every entry. *)
Lemma fetch_all_vulnerabilities_total (P : json → Prop) net completed
    (packages : list declaration) :
  (∀ i pkg ver v, query_osv (net i) pkg ver = Return v → P v) →
  ∃ results,
    fetch_all_vulnerabilities net completed packages = Return results
    ∧ map_Forall (λ _, P) results.
Proof.
  intros HP. unfold fetch_all_vulnerabilities, fetch_all_vulnerabilities_log.
  destruct (collect_total P
              (imap (λ i (d : declaration), (query_osv (net i) d.1 d.2, d.1))
                    packages) completed ∅ [])
    as (results & written & Hc & Hall).
  - apply Forall_lookup_2. intros i [o k]. rewrite list_lookup_imap.
    destruct (packages !! i) as [d|]; [|done]. simpl. intros [= <- <-].
    destruct (query_osv_returns (net i) d.1 d.2) as [v Hv].
    exists v. split; [done|]. by eapply HP.
  - apply map_Forall_empty.
  - exists results. by rewrite Hc.
Qed.

(** ** Trust score on an arbitrary value *)

Section TrustScoreOnValuesFacts.
Variable py_repr : json → pystr.

Lemma any_critical_records (objs : list (list (pystr * json))) :
  any_critical py_repr (JObj <$> objs)
  = Return (existsb (critical py_repr) (record_of <$> objs)).
Proof.
  induction objs as [|members objs IH]; [done|].
  cbn [fmap list_fmap any_critical as_record bind existsb].
  destruct (critical py_repr (record_of members)); [done | exact IH].
Qed.

(** On a list of objects the call is [calculate_trust_score] of the
    records. *)
Lemma calculate_trust_score_py_records objs similarity is_new :
  calculate_trust_score_py py_repr (JArr (JObj <$> objs)) similarity is_new
  = Return (calculate_trust_score py_repr (record_of <$> objs)
                                  similarity is_new).
Proof.
  unfold calculate_trust_score_py. cbn [py_iter bind].
  by rewrite any_critical_records.
Qed.

Lemma score_breakdown_py_records objs similarity is_new :
  score_breakdown_py py_repr (JArr (JObj <$> objs)) similarity is_new
  = Return (score_breakdown py_repr (record_of <$> objs) similarity is_new).
Proof.
  unfold score_breakdown_py. cbn [py_iter bind].
  by rewrite any_critical_records.
Qed.

(** A call that returns has iterated its argument, so the length and the
    explanation are there too, and the score is one that
    [calculate_trust_score] gives. *)
Lemma calculate_trust_score_py_returns vulns similarity is_new score :
  calculate_trust_score_py py_repr vulns similarity is_new = Return score →
  (∃ items, py_iter vulns = Return items ∧ py_len vulns = Return (length items))
  ∧ (∃ lines, score_breakdown_py py_repr vulns similarity is_new = Return lines)
  ∧ ∃ records,
      score = calculate_trust_score py_repr records similarity is_new.
Proof.
  unfold calculate_trust_score_py, score_breakdown_py.
  destruct (py_iter vulns) as [items|e] eqn:Hi; cbn [bind]; [|done].
  destruct (any_critical py_repr items) as [hit|e]; cbn [bind]; [|done].
  intros [= <-]. split; [|split; [by eexists|]].
  - exists items. split; [done|].
    destruct vulns; try done; simpl in Hi; injection Hi as <-;
      simpl; by rewrite ?length_fmap.
  - exists (if hit then [Vuln None None (Some (JStr (cps "CRITICAL")))] else []).
    unfold calculate_trust_score, score_before_floor.
    by destruct hit.
Qed.

Lemma py_iter_len vulns items :
  py_iter vulns = Return items → py_len vulns = Return (length items).
Proof.
  destruct vulns; try done; simpl; intros [= <-]; by rewrite ?length_fmap.
Qed.
End TrustScoreOnValuesFacts.

(** ** Row loop *)

Section PipelineFacts.
Variable py_repr : json → pystr.
Variable fuzz_ratio : pystr → pystr → Z.
Variable py_lower : pystr → pystr.
Variable w : world.

Lemma make_row_spec i vuln_data (d : declaration) r :
  make_row py_repr fuzz_ratio py_lower w i vuln_data d = Return r →
  row_for py_repr fuzz_ratio py_lower vuln_data d r
  ∧ fetch_pypi_age (pypi_get w i) (clock w i) d.1 = Return (PackageAge r).
Proof.
  unfold make_row, row_for.
  destruct (fetch_pypi_age _ _ _) as [age|e]; cbn [bind]; [|done].
  destruct (calculate_trust_score_py _ _ _ _) as [score|e] eqn:Hs;
    cbn [bind]; [|done].
  destruct (py_len _) as [count|e] eqn:Hl; cbn [bind]; [|done].
  destruct (score_breakdown_py _ _ _ _) as [lines|e] eqn:Hb;
    cbn [bind]; [|done].
  intros [= <-]. split; [|reflexivity].
  split; [reflexivity|]. split; [reflexivity|].
  split; [first [exact Hl | reflexivity]|].
  split; [by destruct (check_typosquatting _ _ _)|].
  split; [first [exact Hs | reflexivity]|].
  exists lines. split; [first [exact Hb | reflexivity] | reflexivity].
Qed.

Lemma make_row_returns i vuln_data (d : declaration) :
  record_list (default (JArr []) (vuln_data !! d.1)) →
  ∃ r, make_row py_repr fuzz_ratio py_lower w i vuln_data d = Return r.
Proof.
  intros [objs Hobjs]. unfold make_row.
  destruct (try_except_returns
              (fetch_pypi_age_body (pypi_get w i) (clock w i) d.1) None)
    as [age Hage].
  unfold fetch_pypi_age. rewrite Hage, Hobjs. cbn [bind].
  rewrite calculate_trust_score_py_records, score_breakdown_py_records.
  cbn [bind py_len]. by eexists.
Qed.

Lemma build_rows_lookup i vuln_data (todo : list declaration) rows out :
  build_rows py_repr fuzz_ratio py_lower w i vuln_data todo rows = Return out →
  ∃ new,
    out = rows ++ new
    ∧ length new = length todo
    ∧ ∀ k d r, todo !! k = Some d → new !! k = Some r →
        make_row py_repr fuzz_ratio py_lower w (i + k) vuln_data d = Return r.
Proof.
  revert i rows. induction todo as [|d rest IH]; intros i rows.
  - simpl. intros [= <-]. exists []. rewrite app_nil_r.
    split; [done|]. split; [done|]. intros k d r Hk. by rewrite lookup_nil in Hk.
  - cbn [build_rows].
    destruct (make_row _ _ _ _ i vuln_data d) as [r0|e] eqn:Hr0;
      cbn [bind]; [|done].
    intros (new & -> & Hlen & Hrows)%IH.
    exists (r0 :: new). rewrite <- app_assoc. split; [done|].
    split; [simpl; lia|].
    intros [|k] d' r; simpl.
    + intros [= <-] [= <-]. by rewrite Nat.add_0_r.
    + intros Hd Hr. rewrite Nat.add_succ_r. by apply Hrows.
Qed.

Lemma build_rows_returns i vuln_data (todo : list declaration) rows :
  Forall (λ d : declaration,
            record_list (default (JArr []) (vuln_data !! d.1))) todo →
  ∃ out, build_rows py_repr fuzz_ratio py_lower w i vuln_data todo rows
         = Return out.
Proof.
  intros Hall. revert i rows.
  induction Hall as [|d rest Hd _ IH]; intros i rows; [by eexists|].
  cbn [build_rows]. destruct (make_row_returns i vuln_data d Hd) as [r ->].
  cbn [bind]. apply IH.
Qed.

(** The script up to the rows: the dictionary always comes back, and the
    rows are those of the loop over the declarations of the kept lines. *)
Lemma pipeline file_content :
  let packages := declaration_of <$> kept_lines file_content in
  ∃ vuln_data,
    fetch_all_vulnerabilities (osv_post w) (completed w) packages
    = Return vuln_data
    ∧ analyse py_repr fuzz_ratio py_lower w file_content
      = build_rows py_repr fuzz_ratio py_lower w 0 vuln_data packages []
    ∧ ∀ P : json → Prop,
        (∀ i pkg ver v, query_osv (osv_post w i) pkg ver = Return v → P v) →
        P (JArr []) →
        ∀ pkg, P (default (JArr []) (vuln_data !! pkg)).
Proof.
  intros packages.
  destruct (fetch_all_vulnerabilities_total (λ _, True) (osv_post w)
              (completed w) packages) as (vuln_data & Hv & _); [done|].
  exists vuln_data. split; [done|]. split.
  - unfold analyse. rewrite parse_requirements_spec. cbn [bind].
    fold packages. by rewrite Hv.
  - intros P HP Hnil pkg.
    destruct (fetch_all_vulnerabilities_total P (osv_post w) (completed w)
                packages HP) as (vuln_data' & Hv' & Hall).
    rewrite Hv in Hv'. injection Hv' as <-.
    destruct (vuln_data !! pkg) as [v|] eqn:Hl; [|done]. exact (Hall _ _ Hl).
Qed.

(** The rows, when the loop returns them: one for each kept line, each the
    result of the loop body at its position. *)
Lemma analyse_rows file_content rows :
  analyse py_repr fuzz_ratio py_lower w file_content = Return rows →
  ∃ vuln_data,
    fetch_all_vulnerabilities (osv_post w) (completed w)
      (declaration_of <$> kept_lines file_content) = Return vuln_data
    ∧ length rows = length (kept_lines file_content)
    ∧ ∀ k d r,
        (declaration_of <$> kept_lines file_content) !! k = Some d →
        rows !! k = Some r →
        make_row py_repr fuzz_ratio py_lower w k vuln_data d = Return r.
Proof.
  destruct (pipeline file_content) as (vuln_data & Hv & -> & _).
  intros (new & -> & Hlen & Hrows)%build_rows_lookup.
  exists vuln_data. split; [done|]. split; [|exact Hrows].
  simpl. by rewrite Hlen, length_fmap.
Qed.

(** The loop returns whenever the service answers as documented. *)
Lemma analyse_returns file_content :
  well_typed_answers w →
  ∃ rows, analyse py_repr fuzz_ratio py_lower w file_content = Return rows.
Proof.
  intros Hwt. destruct (pipeline file_content) as (vuln_data & _ & -> & HP).
  apply build_rows_returns, Forall_forall. intros d _.
  apply (HP record_list); [|by exists []].
  intros i pkg ver v. apply query_osv_well_typed, Hwt.
Qed.
End PipelineFacts.

Section PipelineClaims.
Variable py_repr : json → pystr.
Variable fuzz_ratio : pystr → pystr → Z.
Variable py_lower : pystr → pystr.


Lemma no_critical_line similarity is_new :
  (reason_critical ∉ score_breakdown py_repr [] similarity is_new)
  ∧ (20 ∉ deductions_applied py_repr [] similarity is_new).
Proof.
  unfold score_breakdown, deductions_applied. simpl.
  destruct (bool_decide _), is_new; split;
    refine (bool_decide_unpack _ _); vm_compute; exact I.
Qed.

(** X18: [query_osv] always returns.  It returns the empty list when the
    request brings back no JSON object (the transport raises, the status
    is not 200, the body is not JSON or is no object) and when the object
    has no member ["vulns"].  When no request of a run brings back an
    object, the script returns its rows, each with no vulnerability, no
    deduction of 20 and no line for it. *)
Theorem no_object_fail_open post package version (w : world)
    (file_content : pystr) :
  (∃ vulns, query_osv post package version = Return vulns)
  ∧ (no_object_answer (post (payload_for package version)) →
     query_osv post package version = Return (JArr []))
  ∧ (∀ r members,
       post (payload_for package version) = Return r →
       status_code r = 200 →
       r_json r = Return (JObj members) →
       obj_get (cps "vulns") members = None →
       query_osv post package version = Return (JArr []))
  ∧ ((∀ i payload, no_object_answer (osv_post w i payload)) →
     ∃ rows,
       analyse py_repr fuzz_ratio py_lower w file_content = Return rows
       ∧ length rows = length (kept_lines file_content)
       ∧ Forall (λ r,
            let is_new := is_new_of (PackageAge r) in
            Vulnerabilities r = 0%nat
            ∧ TrustScore r
              = calculate_trust_score py_repr [] (Similarity r) is_new
            ∧ (20 ∉ deductions_applied py_repr [] (Similarity r) is_new)
            ∧ ScoreExplanation r
              = join (cps "<br>")
                     (score_breakdown py_repr [] (Similarity r) is_new)
            ∧ (reason_critical
               ∉ score_breakdown py_repr [] (Similarity r) is_new)) rows).
Proof.
  split; [apply query_osv_returns|]. split; [apply query_osv_no_object|].
  split.
  { intros r members Hp Hst Hj Hg. unfold query_osv, query_osv_body.
    rewrite Hp. cbn [bind]. rewrite bool_decide_eq_true_2, Hj by done.
    cbn [bind get_vulns]. by rewrite Hg. }
  intros Hfail.
  destruct (pipeline py_repr fuzz_ratio py_lower w file_content)
    as (vuln_data & Hv & Ha & HP).
  assert (Hempty : ∀ pkg, default (JArr []) (vuln_data !! pkg) = JArr []).
  { apply (HP (λ v, v = JArr [])); [|done].
    intros i pkg ver v. rewrite query_osv_no_object by apply Hfail. congruence. }
  destruct (build_rows_returns py_repr fuzz_ratio py_lower w 0 vuln_data
              (declaration_of <$> kept_lines file_content) []) as [rows Hb].
  { apply Forall_forall. intros d _. rewrite Hempty. by exists []. }
  rewrite Hb in Ha. exists rows. split; [done|].
  destruct (analyse_rows py_repr fuzz_ratio py_lower w file_content rows Ha)
    as (vuln_data' & Hv' & Hlen & Hrows).
  split; [done|]. apply Forall_lookup_2. intros k r Hr.
  assert (is_Some ((declaration_of <$> kept_lines file_content) !! k))
    as [d Hd].
  { apply lookup_lt_is_Some. rewrite length_fmap, <- Hlen.
    by eapply lookup_lt_Some. }
  destruct (make_row_spec _ _ _ _ _ _ _ _ (Hrows k d r Hd Hr))
    as [(_ & _ & Hn & _ & Hs & lines & Hb' & He) _].
  assert (Hempty' : default (JArr []) (vuln_data' !! d.1) = JArr []).
  { rewrite Hv in Hv'. injection Hv' as <-. apply Hempty. }
  rewrite Hempty' in Hn, Hs, Hb'.
  change (JArr []) with (JArr (JObj <$> [])) in Hs, Hb'.
  rewrite calculate_trust_score_py_records in Hs.
  rewrite score_breakdown_py_records in Hb'.
  injection Hn as Hn. injection Hs as Hs. injection Hb' as Hb'.
  cbn [fmap list_fmap] in Hs, Hb'. cbv zeta.
  destruct (no_critical_line (Similarity r) (is_new_of (PackageAge r))).
  subst lines. done.
Qed.
End PipelineClaims.


(** C4 fails on the code: an answer with status 200 whose member ["vulns"]
    is [null] is returned as it is, [None] instead of the empty list, and
    the row loop then raises [TypeError] in [calculate_trust_score]. *)
Lemma query_osv_null_vulns :
  let post := λ _ : osv_payload,
    Return (Response 200 (Return (JObj [(cps "vulns", JNull)]))) in
  let run :=
    {| osv_post := λ _, post;
       completed := [0]%nat;
       pypi_get := λ _ _, Raise RequestException;
       clock := λ _, 0 |} in
  query_osv post (cps "flask") None = Return JNull
  ∧ calculate_trust_score_py (λ _, []) JNull 0 false = Raise TypeError
  ∧ analyse (λ _, []) Fuzz.ratio Fuzz.lower run (cps "flask")
    = Raise TypeError.
Proof. by vm_compute. Qed.

Lemma no_object_fail_open_witness :
  let offline :=
    {| osv_post := λ _ _, Raise RequestException;
       completed := [0]%nat;
       pypi_get := λ _ _, Raise RequestException;
       clock := λ _, 0 |} in
  no_object_answer (osv_post offline 0 (payload_for (cps "flask") None))
  ∧ query_osv (osv_post offline 0) (cps "flask") None = Return (JArr [])
  ∧ ∃ rows,
      analyse (λ _, []) Fuzz.ratio Fuzz.lower offline (cps "flask")
      = Return rows
      ∧ length rows = 1%nat.
Proof.
  intros offline.
  destruct (no_object_fail_open (λ _, []) Fuzz.ratio Fuzz.lower
              (osv_post offline 0) (cps "flask") None offline (cps "flask"))
    as (_ & Hq & _ & Hrows).
  split; [exact I|]. split; [apply Hq; exact I|].
  destruct (Hrows (λ _ _, I)) as (rows & Ha & Hlen & _).
  exists rows. split; [exact Ha | exact Hlen].
Defined.

(** ** Similarity scorer *)

Section SimilarityFacts.
Variable fuzz_ratio : pystr → pystr → Z.
Variable py_lower : pystr → pystr.

Local Abbreviation score := (score_against fuzz_ratio py_lower).

Lemma typo_step_scanned package seen st popular :
  scanned fuzz_ratio py_lower package seen st →
  scanned fuzz_ratio py_lower package (seen ++ [popular])
          (typo_step fuzz_ratio py_lower package st popular).
Proof.
  destruct st as [best [p|]]; unfold scanned, typo_step; simpl.
  - intros [Hpos (before & after & -> & Hp & Hb & Ha)].
    case_bool_decide as Hgt; simpl.
    + split; [lia|]. exists (before ++ p :: after), [].
      split; [done|]. split; [done|]. split; [|constructor].
      apply Forall_app. split; [|constructor].
      * eapply Forall_impl; [exact Hb|]. simpl. lia.
      * lia.
      * eapply Forall_impl; [exact Ha|]. simpl. lia.
    + split; [done|]. exists before, (after ++ [popular]).
      split; [by rewrite <- app_assoc|]. split; [done|]. split; [done|].
      apply Forall_app. split; [done|]. constructor; [lia|constructor].
  - intros [-> Hall]. case_bool_decide as Hgt; simpl.
    + split; [lia|]. exists seen, []. split; [done|]. split; [done|].
      split; [|constructor]. eapply Forall_impl; [exact Hall|]. simpl. lia.
    + split; [done|]. apply Forall_app. split; [done|].
      constructor; [lia|constructor].
Qed.

Lemma scan_scanned package populars seen st :
  scanned fuzz_ratio py_lower package seen st →
  scanned fuzz_ratio py_lower package (seen ++ populars)
          (scan fuzz_ratio py_lower package populars st).
Proof.
  revert seen st. induction populars as [|p rest IH]; intros seen st Hst.
  - by rewrite app_nil_r.
  - simpl. replace (seen ++ p :: rest) with ((seen ++ [p]) ++ rest)
      by by rewrite <- app_assoc.
    apply IH. by apply typo_step_scanned.
Qed.

Lemma max_score_bound package populars best :
  0 ≤ best → Forall (λ q, score package q ≤ best) populars →
  max_score fuzz_ratio py_lower package populars ≤ best.
Proof. intros H0. induction 1; simpl; lia. Qed.

Lemma max_score_ge package populars q :
  q ∈ populars →
  score package q ≤ max_score fuzz_ratio py_lower package populars.
Proof. induction 1; simpl; lia. Qed.

Lemma max_score_nonneg package populars :
  0 ≤ max_score fuzz_ratio py_lower package populars.
Proof. induction populars; simpl; lia. Qed.

(** C6, as the code has it: the score returned is the largest score
    against the reference names, or 0 when none is positive; when it is
    positive the name returned is the first reference name that reaches
    it, and when no reference name scores above 0 the name is [None]. *)
Theorem check_typosquatting_spec (package : pystr) :
  let best := (check_typosquatting fuzz_ratio py_lower package).1 in
  let closest := (check_typosquatting fuzz_ratio py_lower package).2 in
  best = max_score fuzz_ratio py_lower package TOP_PACKAGES
  ∧ match closest with
    | Some popular =>
        0 < best
        ∧ popular ∈ TOP_PACKAGES
        ∧ first_best fuzz_ratio py_lower package TOP_PACKAGES best popular
    | None =>
        best = 0 ∧ Forall (λ q, score package q ≤ 0) TOP_PACKAGES
    end.
Proof.
  cbv zeta. unfold check_typosquatting. generalize TOP_PACKAGES.
  intros populars.
  pose proof (scan_scanned package populars [] (0, None)) as Hs.
  rewrite app_nil_l in Hs. unfold scanned in Hs.
  destruct (scan _ _ _ _ _) as [best [p|]]; cbn [fst snd] in *.
  - destruct Hs as [Hpos Hfirst]; [by split|].
    pose proof Hfirst as (before & after & Heq & Hp & Hb & Ha).
    assert (Hin : p ∈ populars) by (rewrite Heq; set_solver).
    split; [|done].
    apply Z.le_antisymm.
    + rewrite <- Hp. by apply max_score_ge.
    + apply max_score_bound; [lia|]. rewrite Heq.
      apply Forall_app. split.
      * eapply Forall_impl; [exact Hb|]. simpl. lia.
      * constructor; [lia | done].
  - destruct Hs as [-> Hall]; [by split|]. split; [|done].
    apply Z.le_antisymm; [apply max_score_nonneg|].
    by apply max_score_bound.
Qed.
End SimilarityFacts.

(** C6 fails as stated: no reference name shares a letter with [zzz], so
    every score is 0 and the name returned is [None], not a reference
    name. *)
Lemma check_typosquatting_no_match :
  check_typosquatting Fuzz.ratio Fuzz.lower (cps "zzz") = (0, None)
  ∧ Forall (λ q, Fuzz.ratio (Fuzz.lower (cps "zzz")) (Fuzz.lower q) = 0)
           TOP_PACKAGES
  ∧ ¬ ∃ popular,
        popular ∈ TOP_PACKAGES
        ∧ (check_typosquatting Fuzz.ratio Fuzz.lower (cps "zzz")).2
          = Some popular.
Proof.
  split; [by vm_compute|]. split.
  - repeat constructor.
  - intros (popular & _ & H). vm_compute in H. discriminate.
Qed.

(** ** Age fetcher *)

Lemma timedelta_days_nonneg (us : Z) : 0 ≤ timedelta_days us ↔ 0 ≤ us.
Proof.
  unfold timedelta_days, microseconds_per_day. split; intros H.
  - destruct (decide (0 ≤ us)) as [|Hneg]; [done|].
    assert (us `div` (86400 * 1000000) < 0) by (apply Z.div_lt_upper_bound; lia).
    lia.
  - apply Z.div_pos; lia.
Qed.

Lemma fetch_pypi_age_failed get now package :
  lookup_failed (get package) →
  fetch_pypi_age get now package = Return None.
Proof.
  unfold fetch_pypi_age, fetch_pypi_age_body, lookup_failed.
  destruct (get package) as [[[[|first rest]|]]|e]; simpl; try done.
  by intros ->.
Qed.

Lemma fetch_pypi_age_first get now package data first rest t :
  get package = Return data →
  urls data = Some (first :: rest) →
  upload_time first = Some t →
  fetch_pypi_age get now package = Return (Some (timedelta_days (now - t))).
Proof.
  unfold fetch_pypi_age, fetch_pypi_age_body.
  intros -> Hu Ht. simpl. rewrite Hu. simpl. by rewrite Ht.
Qed.

(** C7, as the code has it: the lookup never raises; when it fails the age
    is absent; when it succeeds and the first listed artifact carries the
    earliest time stamp [t], the age is the number of whole days from [t]
    to now, rounded down, which is non-negative exactly when [t] is not
    later than now (and then rounding down is truncation). *)
Theorem fetch_pypi_age_spec get now package :
  (∃ age, fetch_pypi_age get now package = Return age)
  ∧ (lookup_failed (get package) →
     fetch_pypi_age get now package = Return None)
  ∧ (∀ data first rest t,
       get package = Return data →
       urls data = Some (first :: rest) →
       upload_time first = Some t →
       earliest (first :: rest) = Some t →
       fetch_pypi_age get now package
       = Return (Some (timedelta_days (now - t)))
       ∧ (0 ≤ timedelta_days (now - t) ↔ t ≤ now)
       ∧ (t ≤ now →
          timedelta_days (now - t) = (now - t) `quot` microseconds_per_day)).
Proof.
  split; [apply try_except_returns|]. split; [apply fetch_pypi_age_failed|].
  intros data first rest t Hg Hu Ht _.
  split; [by eapply fetch_pypi_age_first|]. split.
  - rewrite timedelta_days_nonneg. lia.
  - intros Hle. unfold timedelta_days, microseconds_per_day.
    symmetry. apply Z.quot_div_nonneg; lia.
Qed.

Lemma fetch_pypi_age_spec_witness :
  let day := microseconds_per_day in
  let registry := λ _ : pystr,
    Return (PypiData (Some [Artifact (Some (3 * day)); Artifact (Some (7 * day))])) in
  lookup_failed (Return (PypiData (Some [])))
  ∧ fetch_pypi_age (λ _, Return (PypiData (Some []))) 0 (cps "flask")
    = Return None
  ∧ earliest [Artifact (Some (3 * day)); Artifact (Some (7 * day))]
    = Some (3 * day)
  ∧ fetch_pypi_age registry (40 * day + 5) (cps "flask") = Return (Some 37).
Proof.
  intros day registry.
  destruct (fetch_pypi_age_spec (λ _, Return (PypiData (Some []))) 0
              (cps "flask")) as (_ & Hfail & _).
  destruct (fetch_pypi_age_spec registry (40 * day + 5) (cps "flask"))
    as (_ & _ & Hfirst).
  split; [exact I|]. split; [apply Hfail; exact I|]. split; [reflexivity|].
  destruct (Hfirst _ _ _ (3 * day) eq_refl eq_refl eq_refl eq_refl)
    as (Hage & _ & _).
  exact Hage.
Defined.

(** C7 fails as stated.  The first listed artifact need not be the earliest
    one: with entries 10 days and 0 days after the epoch and the clock at
    day 20, the age returned is 10 while the earliest time stamp is 20 days
    old.  And a time stamp later than the clock gives a negative age. *)
Lemma fetch_pypi_age_not_earliest :
  let day := microseconds_per_day in
  let files := [Artifact (Some (10 * day)); Artifact (Some 0)] in
  fetch_pypi_age (λ _, Return (PypiData (Some files))) (20 * day) (cps "flask")
  = Return (Some 10)
  ∧ earliest files = Some 0
  ∧ timedelta_days (20 * day - 0) = 20
  ∧ fetch_pypi_age (λ _, Return (PypiData (Some [Artifact (Some day)])))
      (day - 1) (cps "flask")
    = Return (Some (-1)).
Proof. by vm_compute. Qed.

(** ** Scenarios of the specification *)

Example scenario_manifest :
  parse_requirements
    (cps "requests==2.0.0" ++ [10%N] ++ cps "# comment" ++ [10%N]
     ++ cps "requessts" ++ [10%N])
  = Return [(cps "requests", Some (cps "2.0.0")); (cps "requessts", None)].
Proof. reflexivity. Qed.

Example scenario_typo :
  check_typosquatting Fuzz.ratio Fuzz.lower (cps "requessts")
  = (94, Some (cps "requests")).
Proof. by vm_compute. Qed.

(** Priority beats position: [>=] comes first in the line, [==] first in
    the list. *)
Example scenario_priority :
  parse_line (cps "a>=1==2") = Return (cps "a>=1", Some (cps "2")).
Proof. reflexivity. Qed.

Example scenario_clean (py_repr : json → pystr) :
  calculate_trust_score py_repr [] 10 (is_new_of (Some 500)) = 100
  ∧ score_breakdown py_repr [] 10 (is_new_of (Some 500)) = [no_risk_factors].
Proof. split; reflexivity. Qed.

Example scenario_worst (py_repr : json → pystr) :
  let v := Vuln None None (Some (JStr (cps "CRITICAL: remote code execution"))) in
  calculate_trust_score py_repr [v] 95 (is_new_of (Some 5)) = 20
  ∧ score_breakdown py_repr [v] 95 (is_new_of (Some 5))
    = [reason_critical; reason_typo; reason_new].
Proof. split; reflexivity. Qed.

(** With a name declared twice, the entry that survives is the answer of
    the fetch that finishes last. *)
Example scenario_last_writer :
  let v := JObj [(cps "id", JStr (cps "GHSA-1"))] in
  let net := λ (_ : nat) (payload : osv_payload),
    Return (Response 200
      (Return (JObj
         (if bool_decide (payload_version payload = Some (cps "1"))
          then [(cps "vulns", JArr [v])] else [])))) in
  let packages := [(cps "a", Some (cps "1")); (cps "a", Some (cps "2"))] in
  (∃ r, fetch_all_vulnerabilities net [0; 1]%nat packages = Return r
        ∧ r !! cps "a" = Some (JArr []))
  ∧ (∃ r, fetch_all_vulnerabilities net [1; 0]%nat packages = Return r
          ∧ r !! cps "a" = Some (JArr [v])).
Proof. split; (eexists; split; [reflexivity | by vm_compute]). Qed.

(** * Further properties *)

(** ** Manifest parser: well-formed lines *)

Lemma linebreak_is_space (c : N) : is_linebreak c = true → is_space c = true.
Proof.
  unfold is_linebreak, is_space. intros H.
  repeat (apply orb_true_iff in H as [H|H]);
    repeat (apply andb_true_iff in H as [? ?]);
    repeat match goal with
           | H : (_ =? _)%N = true |- _ => apply N.eqb_eq in H; subst
           | H : (_ <=? _)%N = true |- _ => apply N.leb_le in H
           end; try reflexivity.
  - replace ((9 <=? c)%N) with true by (symmetry; apply N.leb_le; lia).
    replace ((c <=? 13)%N) with true by (symmetry; apply N.leb_le; lia).
    reflexivity.
  - replace ((28 <=? c)%N) with true by (symmetry; apply N.leb_le; lia).
    replace ((c <=? 32)%N) with true by (symmetry; apply N.leb_le; lia).
    by rewrite orb_true_r.
Qed.

Lemma splitlines_from_no_break (cur s : pystr) :
  Forall (λ c, is_linebreak c = false) s → cur ++ s ≠ [] →
  splitlines_from false cur s = [reverse cur ++ s].
Proof.
  intros Hs. revert cur. induction Hs as [|c s Hc _ IH]; intros cur Hne.
  - rewrite app_nil_r in *. simpl. by destruct cur.
  - cbn [splitlines_from andb]. rewrite Hc, IH by done.
    by rewrite reverse_cons, <- app_assoc.
Qed.

Lemma splitlines_from_line (cur a b : pystr) :
  Forall (λ c, is_linebreak c = false) a →
  splitlines_from false cur (a ++ 10%N :: b)
  = (reverse cur ++ a) :: splitlines_from false [] b.
Proof.
  intros Ha. revert cur. induction Ha as [|c a Hc _ IH]; intros cur.
  - simpl. by rewrite app_nil_r.
  - cbn [app splitlines_from andb]. rewrite Hc, IH.
    by rewrite reverse_cons, <- app_assoc.
Qed.

Lemma lstrip_no_space (s : pystr) :
  Forall (λ c, is_space c = false) s → lstrip s = s.
Proof. destruct 1 as [|c s Hc _]; simpl; [done | by rewrite Hc]. Qed.

Lemma strip_no_space (s : pystr) :
  Forall (λ c, is_space c = false) s → strip s = s.
Proof.
  intros Hs. unfold strip, rstrip. rewrite (lstrip_no_space s Hs).
  rewrite lstrip_no_space; [apply reverse_involutive|].
  by apply Forall_reverse.
Qed.

Lemma startswith_cons_ne (a b : N) (p s : pystr) :
  a ≠ b → startswith (a :: p) (b :: s) = false.
Proof. intros Hne. simpl. by rewrite decide_False. Qed.

(** A token made of comparator characters that starts inside [m ++ b],
    where [b] has no comparator character, lies inside [m]. *)
Lemma startswith_app_comparator (tok m b : pystr) :
  Forall (λ c, comparator_char c = true) tok →
  Forall (λ c, comparator_char c = false) b →
  startswith tok (m ++ b) = true → startswith tok m = true.
Proof.
  intros Htok Hb. revert m. induction Htok as [|t tok Ht _ IH]; intros m; [done|].
  destruct m as [|c m]; simpl.
  - destruct Hb as [|c b Hc _]; [done|]. simpl.
    destruct (decide (t = c)) as [->|]; [congruence | done].
  - destruct (decide (t = c)); [apply IH | done].
Qed.

Lemma str_in_app_comparator (tok m b : pystr) :
  tok ≠ [] →
  Forall (λ c, comparator_char c = true) tok →
  Forall (λ c, comparator_char c = false) b →
  str_in tok (m ++ b) = true → str_in tok m = true.
Proof.
  intros Hne Htok Hb. induction m as [|c m IH].
  - simpl. intros H. exfalso. clear -Hne Htok Hb H.
    induction Hb as [|c b Hc _ IH]; destruct tok as [|t tok]; try done.
    + cbn [str_in] in H. rewrite orb_true_iff in H.
      destruct H as [H|H]; [|by apply IH].
      simpl in H. destruct (decide (t = c)) as [->|]; [|done].
      apply Forall_cons in Htok as [Ht _]. congruence.
  - cbn [app str_in]. rewrite !orb_true_iff. intros [H|H].
    + left. by apply (startswith_app_comparator tok (c :: m) b).
    + right. by apply IH.
Qed.

Lemma str_in_comparator_middle (tok a m b : pystr) :
  tok ≠ [] →
  Forall (λ c, comparator_char c = true) tok →
  Forall (λ c, comparator_char c = false) a →
  Forall (λ c, comparator_char c = false) b →
  str_in tok (a ++ m ++ b) = true → str_in tok m = true.
Proof.
  intros Hne Htok Ha Hb. induction Ha as [|c a Hc _ IH].
  - simpl. by apply str_in_app_comparator.
  - cbn [app str_in]. rewrite orb_true_iff. intros [H|H]; [|by apply IH].
    destruct tok as [|t tok]; [done|]. apply Forall_cons in Htok as [Ht _].
    rewrite startswith_cons_ne in H; [done | congruence].
Qed.

Lemma split_first_prefix (sep b : pystr) :
  split_first sep (sep ++ b) = Some ([], b).
Proof.
  destruct (sep ++ b) as [|c l] eqn:E; cbn [split_first];
    by rewrite <- E, startswith_app, drop_app_length.
Qed.

Lemma split_first_at (sep a b : pystr) :
  sep ≠ [] →
  Forall (λ c, comparator_char c = true) sep →
  Forall (λ c, comparator_char c = false) a →
  split_first sep (a ++ sep ++ b) = Some (a, b).
Proof.
  intros Hne Hsep Ha. induction Ha as [|c a Hc _ IH].
  - exact (split_first_prefix sep b).
  - destruct sep as [|t sep]; [done|].
    pose proof Hsep as [Ht _]%Forall_cons.
    cbn [app split_first]. rewrite startswith_cons_ne by congruence.
    change (a ++ t :: sep ++ b) with (a ++ (t :: sep) ++ b). by rewrite IH.
Qed.

Lemma name_char_spec (c : N) :
  name_char c = true → is_space c = false ∧ comparator_char c = false.
Proof.
  unfold name_char. rewrite andb_true_iff, !negb_true_iff. tauto.
Qed.

Lemma comparators_facts (sep : pystr) :
  sep ∈ comparators →
  sep ≠ []
  ∧ Forall (λ c, comparator_char c = true) sep
  ∧ Forall (λ c, is_space c = false) sep.
Proof.
  unfold comparators. rewrite !elem_of_cons, elem_of_nil.
  intros [->|[->|[->|[->|[->|[]]]]]];
    (split; [done | split; by repeat constructor]).
Qed.

Lemma first_comparator_of_sep (sep line : pystr) :
  sep ∈ comparators →
  str_in sep line = true →
  (∀ tok, tok ∈ comparators → str_in tok line = true → str_in tok sep = true) →
  first_comparator line = Some sep.
Proof.
  intros Hsep Hin Hothers. unfold first_comparator.
  assert (Hfalse : ∀ tok, tok ∈ comparators → str_in tok sep = false →
                          str_in tok line = false).
  { intros tok Ht Hs. destruct (str_in tok line) eqn:Hl; [|done].
    rewrite (Hothers tok Ht Hl) in Hs. done. }
  revert Hsep Hin Hfalse. unfold comparators.
  rewrite !elem_of_cons, elem_of_nil.
  intros [->|[->|[->|[->|[->|[]]]]]] Hin Hfalse; cbn [List.find];
    repeat match goal with
           | |- context [str_in ?tok line] =>
               first [ rewrite Hin
                     | rewrite (Hfalse tok) by (first [set_solver | reflexivity]) ]
           end; reflexivity.
Qed.

(** X1: a line [name sep version], for any of the five comparators and with
    no white space or comparator character in the name and the version,
    parses back to exactly that name and that version. *)
Theorem parse_requirements_round_trip (name sep version : pystr) :
  sep ∈ comparators →
  name ≠ [] →
  head name ≠ Some 35%N →
  Forall (λ c, name_char c = true) name →
  Forall (λ c, name_char c = true) version →
  parse_requirements (name ++ sep ++ version) = Return [(name, Some version)].
Proof.
  intros Hsep Hne Hhash Hname Hversion.
  destruct (comparators_facts sep Hsep) as (Hsepne & Hsepc & Hseps).
  assert (Hn_s : Forall (λ c, is_space c = false) name)
    by (eapply Forall_impl; [exact Hname | intros c Hc; by apply name_char_spec]).
  assert (Hn_c : Forall (λ c, comparator_char c = false) name)
    by (eapply Forall_impl; [exact Hname | intros c Hc; by apply name_char_spec]).
  assert (Hv_s : Forall (λ c, is_space c = false) version)
    by (eapply Forall_impl; [exact Hversion | intros c Hc; by apply name_char_spec]).
  assert (Hv_c : Forall (λ c, comparator_char c = false) version)
    by (eapply Forall_impl; [exact Hversion | intros c Hc; by apply name_char_spec]).
  set (line := name ++ sep ++ version).
  assert (Hline_s : Forall (λ c, is_space c = false) line)
    by (unfold line; rewrite !Forall_app; done).
  assert (Hline_ne : line ≠ []) by (unfold line; by destruct name).
  assert (Hkept : kept_lines line = [line]).
  { unfold kept_lines, splitlines.
    rewrite splitlines_from_no_break; [|
      eapply Forall_impl; [exact Hline_s|]; intros c Hc;
      destruct (is_linebreak c) eqn:Hb; [|done];
      apply linebreak_is_space in Hb; congruence | done].
    cbn [reverse app fmap list_fmap]. rewrite strip_no_space by done.
    rewrite filter_cons, decide_True; [done|].
    split; [done|]. unfold line. by destruct name. }
  rewrite parse_requirements_spec, Hkept. cbn [fmap list_fmap].
  unfold declaration_of.
  rewrite (first_comparator_of_sep sep line Hsep).
  - unfold line. rewrite split_first_at by done.
    by rewrite !strip_no_space by done.
  - apply str_in_spec. by exists name, version.
  - intros tok Htok. destruct (comparators_facts tok Htok) as (? & ? & _).
    by apply str_in_comparator_middle.
Qed.

Lemma parse_requirements_round_trip_witness :
  parse_requirements (cps "flask" ++ cps ">=" ++ cps "2.0")
  = Return [(cps "flask", Some (cps "2.0"))].
Proof.
  apply parse_requirements_round_trip.
  - unfold comparators. apply list_elem_of_further, list_elem_of_here.
  - discriminate.
  - discriminate.
  - repeat constructor.
  - repeat constructor.
Defined.

(** X2: a manifest is parsed line by line: the declarations of a first line
    followed by a line feed and more text are the declarations of that line
    followed by the declarations of the rest. *)
Theorem parse_requirements_line_by_line (first rest : pystr) :
  Forall (λ c, is_linebreak c = false) first →
  ∃ d_first d_rest,
    parse_requirements first = Return d_first
    ∧ parse_requirements rest = Return d_rest
    ∧ parse_requirements (first ++ 10%N :: rest) = Return (d_first ++ d_rest).
Proof.
  intros Hfirst. rewrite !parse_requirements_spec.
  do 2 eexists. split; [done|]. split; [done|].
  rewrite <- fmap_app. do 2 f_equal.
  unfold kept_lines, splitlines. rewrite splitlines_from_line by done.
  cbn [reverse app fmap list_fmap]. rewrite filter_cons.
  destruct first as [|c first].
  - done.
  - rewrite (splitlines_from_no_break [] (c :: first)) by done.
    unfold reverse. cbn [rev_append app fmap list_fmap].
    rewrite filter_cons, filter_nil. by destruct (decide _).
Qed.

Lemma parse_requirements_line_by_line_witness :
  ∃ d_rest,
    parse_requirements (cps "numpy") = Return d_rest
    ∧ parse_requirements (cps "flask==2.0" ++ 10%N :: cps "numpy")
      = Return ((cps "flask", Some (cps "2.0")) :: d_rest).
Proof.
  destruct (parse_requirements_line_by_line (cps "flask==2.0") (cps "numpy"))
    as (d_first & d_rest & H1 & H2 & H3).
  - repeat constructor.
  - exists d_rest. split; [exact H2|].
    injection H1 as <-. exact H3.
Defined.

Lemma lstrip_suffix (s : pystr) : ∃ ws, s = ws ++ lstrip s.
Proof.
  induction s as [|c s [ws IH]]; [by exists []|]. simpl.
  destruct (is_space c); [|by exists []].
  exists (c :: ws). simpl. by rewrite <- IH.
Qed.

Lemma strip_infix (s : pystr) : ∃ ws1 ws2, s = ws1 ++ strip s ++ ws2.
Proof.
  destruct (lstrip_suffix s) as [ws1 H1].
  destruct (lstrip_suffix (reverse (lstrip s))) as [ws2 H2].
  exists ws1, (reverse ws2). unfold strip, rstrip.
  rewrite <- reverse_app, <- H2, reverse_involutive. exact H1.
Qed.

Lemma str_in_strip (tok s : pystr) :
  str_in tok (strip s) = true → str_in tok s = true.
Proof.
  rewrite !str_in_spec. intros (l & r & Heq).
  destruct (strip_infix s) as (ws1 & ws2 & Hs).
  exists (ws1 ++ l), (r ++ ws2). rewrite Hs, Heq.
  by rewrite <- !app_assoc.
Qed.

Lemma leftmost_split_not_in (sep s l r : pystr) :
  sep ≠ [] → leftmost_split sep s l r → str_in sep l = false.
Proof.
  intros Hne [Heq Hmin]. apply str_in_false. intros (l' & r' & Hl).
  specialize (Hmin l' (r' ++ sep ++ r)).
  rewrite Heq, Hl, <- !app_assoc in Hmin. specialize (Hmin eq_refl).
  rewrite !length_app in Hmin. destruct sep; [done|]. simpl in Hmin. lia.
Qed.

Lemma declaration_of_tokens (line : pystr) :
  match first_comparator line with
  | Some sep =>
      ∃ before after v,
        comparators = before ++ sep :: after
        ∧ Forall (λ tok, str_in tok (declaration_of line).1 = false)
                 (before ++ [sep])
        ∧ (declaration_of line).2 = Some v
        ∧ trimmed v
  | None =>
      declaration_of line = (line, None)
      ∧ Forall (λ tok, str_in tok line = false) comparators
  end.
Proof.
  unfold declaration_of.
  destruct (first_comparator line) as [sep|] eqn:Hf.
  - pose proof Hf as (before & after & Hc & Hin & Hb)%first_comparator_Some.
    destruct (split_first_in _ _ Hin) as [[l r] Hs]. rewrite Hs.
    pose proof Hs as Hleft%split_first_Some.
    exists before, after, (strip r). split; [done|]. simpl.
    split; [|split; [done | apply strip_trimmed]].
    assert (Hl : ∀ tok, str_in tok line = false → str_in tok (strip l) = false).
    { intros tok Ht. destruct (str_in tok (strip l)) eqn:Hsl; [|done].
      apply str_in_strip, str_in_spec in Hsl as (x & y & Hxy).
      apply str_in_false in Ht. destruct Ht.
      exists x, (y ++ sep ++ r). destruct Hleft as [-> _].
      by rewrite Hxy, <- !app_assoc. }
    apply Forall_app. split.
    + eapply Forall_impl; [exact Hb|]. exact Hl.
    + constructor; [|constructor].
      destruct (str_in sep (strip l)) eqn:Hsl; [|done].
      apply str_in_strip in Hsl.
      rewrite (leftmost_split_not_in sep line l r) in Hsl; [done| |done].
      assert (sep ∈ comparators) as Hsep by (rewrite Hc; set_solver).
      by apply comparators_facts in Hsep as [? _].
  - split; [done|]. by apply first_comparator_None.
Qed.

(** X3: the name of a declaration never contains the comparator at which
    its line was split nor any comparator of higher priority, and its
    version is trimmed; a declaration without a version is the whole line,
    which then contains no comparator at all. *)
Theorem parse_requirements_name_tokens (file_content : pystr) :
  ∃ packages,
    parse_requirements file_content = Return packages
    ∧ Forall2 (λ line (d : declaration),
         match first_comparator line with
         | Some sep =>
             ∃ before after v,
               comparators = before ++ sep :: after
               ∧ Forall (λ tok, str_in tok d.1 = false) (before ++ [sep])
               ∧ d.2 = Some v
               ∧ trimmed v
         | None =>
             d = (line, None)
             ∧ Forall (λ tok, str_in tok line = false) comparators
         end) (kept_lines file_content) packages.
Proof.
  eexists. split; [apply parse_requirements_spec|].
  apply Forall2_fmap_r, Forall_Forall2_diag, Forall_forall.
  intros line _. apply declaration_of_tokens.
Qed.

(** ** Manifest parser: one line of the manifest *)




(** ** Trust score: what moves it and what does not *)

Section TrustScoreMore.
Variable py_repr : json → pystr.

Lemma existsb_critical_false (vulns : list vuln) :
  existsb (critical py_repr) vulns = false ↔ ¬ some_critical py_repr vulns.
Proof.
  rewrite <- existsb_critical. destruct (existsb _ vulns); naive_solver.
Qed.

Lemma some_critical_mono (vulns vulns' : list vuln) :
  vulns ⊆ vulns' → some_critical py_repr vulns → some_critical py_repr vulns'.
Proof. intros Hsub (v & Hv & H). exists v. split; [by apply Hsub | done]. Qed.

(** X4: the score is monotone: more vulnerability records, a higher
    similarity or a package that becomes new never raise it. *)
Theorem calculate_trust_score_monotone (vulns vulns' : list vuln)
    (similarity similarity' : Z) (is_new is_new' : bool) :
  vulns ⊆ vulns' →
  similarity ≤ similarity' →
  (is_new = true → is_new' = true) →
  calculate_trust_score py_repr vulns' similarity' is_new'
  ≤ calculate_trust_score py_repr vulns similarity is_new.
Proof.
  intros Hsub Hsim Hnew.
  pose proof (some_critical_mono vulns vulns' Hsub) as Hc.
  rewrite <- !existsb_critical in Hc.
  unfold calculate_trust_score, score_before_floor.
  destruct (existsb _ vulns); [rewrite Hc by done|];
    destruct (existsb _ vulns'); repeat case_bool_decide;
    destruct is_new; try rewrite Hnew by done; destruct is_new'; lia.
Qed.

(** X5: records that are not critical, among them every record without a
    severity, change neither the score nor the explanation, however many
    they are. *)
Theorem uncritical_vulns_ignored (vulns : list vuln) (similarity : Z)
    (is_new : bool) :
  Forall (λ v, severity v = None
               ∨ ¬ ∃ l r, severity_text py_repr v = l ++ cps "CRITICAL" ++ r)
         vulns →
  calculate_trust_score py_repr vulns similarity is_new
  = calculate_trust_score py_repr [] similarity is_new
  ∧ score_breakdown py_repr vulns similarity is_new
    = score_breakdown py_repr [] similarity is_new.
Proof.
  intros Hall.
  assert (Hno : existsb (critical py_repr) vulns = false).
  { apply existsb_critical_false. intros (v & Hv & Hcrit).
    rewrite Forall_forall in Hall. destruct (Hall v Hv) as [Hnone|Hn]; [|done].
    destruct Hcrit as (l & r & Heq). unfold severity_text in Heq.
    rewrite Hnone in Heq. simpl in Heq.
    destruct l; simpl in Heq; discriminate. }
  unfold calculate_trust_score, score_before_floor, score_breakdown.
  by rewrite Hno.
Qed.

Lemma bar_color_bands (score : Z) :
  (bar_color score = cps "#ef4444" ↔ score < 40)
  ∧ (bar_color score = cps "#f97316" ↔ 40 ≤ score < 60)
  ∧ (bar_color score = cps "#eab308" ↔ 60 ≤ score < 80)
  ∧ (bar_color score = cps "#22c55e" ↔ 80 ≤ score).
Proof.
  unfold bar_color. repeat case_bool_decide;
    (split; [|split; [|split]]); split; intros Hx;
    first [reflexivity | lia | discriminate Hx].
Qed.

(** X6: the colour of the bar of a computed score says which deductions
    were made: red exactly for a critical vulnerability together with a
    similarity of 90 or more, orange for such a similarity without a
    critical vulnerability, yellow for a critical vulnerability of a new
    package below that similarity, and green otherwise. *)
Theorem bar_color_of_score (vulns : list vuln) (similarity : Z)
    (is_new : bool) :
  let color :=
    bar_color (calculate_trust_score py_repr vulns similarity is_new) in
  (color = cps "#ef4444" ↔ some_critical py_repr vulns ∧ 90 ≤ similarity)
  ∧ (color = cps "#f97316" ↔ ¬ some_critical py_repr vulns ∧ 90 ≤ similarity)
  ∧ (color = cps "#eab308"
     ↔ some_critical py_repr vulns ∧ similarity < 90 ∧ is_new = true)
  ∧ (color = cps "#22c55e"
     ↔ similarity < 90 ∧ ¬ (some_critical py_repr vulns ∧ is_new = true)).
Proof.
  cbv zeta.
  destruct (bar_color_bands
              (calculate_trust_score py_repr vulns similarity is_new))
    as (-> & -> & -> & ->).
  rewrite <- !existsb_critical.
  unfold calculate_trust_score, score_before_floor.
  destruct (existsb _ vulns), is_new; case_bool_decide;
    (split; [|split; [|split]]); split; intros Hx;
    first [lia | done | tauto | intros [? ?]; done].
Qed.

(** X7: the explanation is never empty and never repeats a line; it is the
    sentinel line alone exactly when the score is 100, and otherwise does
    not contain the sentinel. *)
Theorem score_breakdown_shape (vulns : list vuln) (similarity : Z)
    (is_new : bool) :
  let lines := score_breakdown py_repr vulns similarity is_new in
  let score := calculate_trust_score py_repr vulns similarity is_new in
  lines ≠ []
  ∧ (length lines ≤ 3)%nat
  ∧ NoDup lines
  ∧ (lines = [no_risk_factors] ↔ score = 100)
  ∧ (no_risk_factors ∈ lines ↔ score = 100).
Proof.
  cbv zeta. unfold calculate_trust_score, score_before_floor, score_breakdown.
  destruct (existsb _ vulns), (bool_decide _), is_new; cbn [app];
    (split; [done|]); (split; [simpl; lia|]);
    (split; [apply (bool_decide_unpack _); vm_compute; exact I|]);
    (split; (split; intros Hx; first [reflexivity | discriminate | lia
      | apply (bool_decide_unpack _); vm_compute; exact I
      | exfalso; revert Hx; apply (bool_decide_unpack _); vm_compute; exact I])).
Qed.
End TrustScoreMore.

Lemma calculate_trust_score_monotone_witness :
  let v := Vuln None None (Some (JStr (cps "CRITICAL"))) in
  calculate_trust_score (λ _, []) [v; v] 95 true
  ≤ calculate_trust_score (λ _, []) [v] 20 false.
Proof.
  intros v. apply calculate_trust_score_monotone.
  - set_solver.
  - lia.
  - discriminate.
Defined.

Lemma uncritical_vulns_ignored_witness :
  let vulns := [Vuln (Some (JStr (cps "GHSA-1"))) None None;
                Vuln None None (Some (JStr (cps "HIGH")))] in
  calculate_trust_score (λ _, []) vulns 10 false
  = calculate_trust_score (λ _, []) [] 10 false
  ∧ score_breakdown (λ _, []) vulns 10 false
    = score_breakdown (λ _, []) [] 10 false.
Proof.
  intros vulns. apply (uncritical_vulns_ignored (λ _, []) vulns 10 false).
  constructor; [by left|]. constructor; [|constructor].
  right. intros Hin%str_in_spec. discriminate.
Defined.

(** ** Similarity scorer: bounds and the reference names themselves *)

Section SimilarityMore.
Variable py_repr : json → pystr.
Variable fuzz_ratio : pystr → pystr → Z.
Variable py_lower : pystr → pystr.

Lemma scanned_bounds package seen st :
  scanned fuzz_ratio py_lower package seen st →
  0 ≤ st.1
  ∧ Forall (λ q, score_against fuzz_ratio py_lower package q ≤ st.1) seen
  ∧ (st.2 = None ↔ st.1 = 0)
  ∧ (st.1 = 0
     ∨ ∃ q, q ∈ seen ∧ score_against fuzz_ratio py_lower package q = st.1).
Proof.
  destruct st as [best [p|]]; unfold scanned; simpl.
  - intros [Hpos (before & after & -> & Hp & Hb & Ha)].
    split; [lia|]. split; [|split; [split; [done | lia]|]].
    + apply Forall_app. split.
      * eapply Forall_impl; [exact Hb|]. simpl. lia.
      * constructor; [lia | done].
    + right. exists p. split; [set_solver | done].
  - intros [-> Hall]. split; [done|]. split; [done|]. split; [done | by left].
Qed.

Lemma check_typosquatting_bounds package :
  let st := check_typosquatting fuzz_ratio py_lower package in
  0 ≤ st.1
  ∧ Forall (λ q, score_against fuzz_ratio py_lower package q ≤ st.1)
           TOP_PACKAGES
  ∧ (st.2 = None ↔ st.1 = 0)
  ∧ (st.1 = 0
     ∨ ∃ q, q ∈ TOP_PACKAGES
            ∧ score_against fuzz_ratio py_lower package q = st.1).
Proof.
  apply scanned_bounds. unfold check_typosquatting.
  apply (scan_scanned fuzz_ratio py_lower package TOP_PACKAGES [] (0, None)).
  by split.
Qed.

(** X8: when the ratio of a string with itself is 100, a package whose
    lower-cased name is that of a reference name gets a similarity of at
    least 100; so a popular package itself loses the 50 points of a
    suspected typo and never scores above 50. *)
Theorem reference_names_flagged (package popular : pystr)
    (vulns : list vuln) (is_new : bool) :
  (∀ a, fuzz_ratio a a = 100) →
  popular ∈ TOP_PACKAGES →
  py_lower package = py_lower popular →
  let similarity := (check_typosquatting fuzz_ratio py_lower package).1 in
  100 ≤ similarity
  ∧ calculate_trust_score py_repr vulns similarity is_new ≤ 50
  ∧ reason_typo ∈ score_breakdown py_repr vulns similarity is_new.
Proof.
  intros Hrefl Hin Hlow. cbv zeta.
  destruct (check_typosquatting_bounds package) as (_ & Hall & _).
  rewrite Forall_forall in Hall. specialize (Hall popular Hin).
  unfold score_against in Hall. rewrite Hlow, Hrefl in Hall.
  split; [done|].
  unfold calculate_trust_score, score_before_floor, score_breakdown.
  rewrite (bool_decide_eq_true_2 (_ >= 90)) by lia.
  destruct (existsb _ vulns), is_new; (split; [lia | set_solver]).
Qed.

(** X9: the similarity is never negative, it is at most 100 when the ratio
    is, and the closest name is missing exactly when the similarity
    is 0. *)
Theorem check_typosquatting_range (package : pystr) :
  (∀ a b, fuzz_ratio a b ≤ 100) →
  let st := check_typosquatting fuzz_ratio py_lower package in
  0 ≤ st.1 ≤ 100 ∧ (st.2 = None ↔ st.1 = 0).
Proof.
  intros Hle. cbv zeta.
  destruct (check_typosquatting_bounds package) as (H0 & _ & Hnone & Hatt).
  split; [|done]. split; [done|].
  destruct Hatt as [-> | (q & _ & <-)]; [lia | apply Hle].
Qed.
End SimilarityMore.

Lemma reference_names_flagged_witness :
  let exact := λ a b : pystr, if decide (a = b) then 100 else 0 in
  100 ≤ (check_typosquatting exact Fuzz.lower (cps "Flask")).1
  ∧ calculate_trust_score (λ _, []) [] 
      (check_typosquatting exact Fuzz.lower (cps "Flask")).1 false ≤ 50.
Proof.
  intros exact.
  destruct (reference_names_flagged (λ _, []) exact Fuzz.lower
              (cps "Flask") (cps "flask") [] false) as (H1 & H2 & _).
  - intros a. unfold exact. by rewrite decide_True.
  - unfold TOP_PACKAGES. apply list_elem_of_further, list_elem_of_here.
  - reflexivity.
  - split; [exact H1 | exact H2].
Defined.

Lemma check_typosquatting_range_witness :
  let exact := λ a b : pystr, if decide (a = b) then 100 else 0 in
  0 ≤ (check_typosquatting exact Fuzz.lower (cps "zzz")).1 ≤ 100.
Proof.
  intros exact.
  destruct (check_typosquatting_range exact Fuzz.lower (cps "zzz")) as [H _].
  - intros a b. unfold exact. destruct (decide (a = b)); lia.
  - exact H.
Defined.

(** ** Vulnerability fetcher: where an answer comes from *)

(** X10: a non-empty list is never made up by [query_osv]: it is returned
    exactly when the request is answered with status 200 and a JSON object
    whose member ["vulns"] is that list. *)
Theorem query_osv_nonempty post package version (items : list json) :
  items ≠ [] →
  query_osv post package version = Return (JArr items)
  ↔ ∃ r members,
      post (payload_for package version) = Return r
      ∧ status_code r = 200
      ∧ r_json r = Return (JObj members)
      ∧ obj_get (cps "vulns") members = Some (JArr items).
Proof.
  intros Hne. split.
  - intros [[= ->] | H]%query_osv_cases; done.
  - intros (r & members & Hp & Hst & Hj & Hg).
    unfold query_osv, query_osv_body. rewrite Hp. cbn [bind].
    rewrite bool_decide_eq_true_2, Hj by done. cbn [bind get_vulns].
    by rewrite Hg.
Qed.

Lemma query_osv_nonempty_witness :
  let v := JObj [(cps "id", JStr (cps "GHSA-1"))] in
  let post := λ _ : osv_payload,
    Return (Response 200 (Return (JObj [(cps "vulns", JArr [v])]))) in
  query_osv post (cps "flask") None = Return (JArr [v]).
Proof.
  intros v post. apply query_osv_nonempty; [discriminate|].
  do 2 eexists. split; [reflexivity|]. split; [reflexivity|].
  split; reflexivity.
Defined.

(** With distinct names and every fetch finishing once, each declaration
    finds the answer of its own fetch in the dictionary. *)
Lemma fetch_all_vulnerabilities_distinct net completed
    (packages : list declaration) :
  NoDup packages.*1 →
  completed ≡ₚ seq 0 (length packages) →
  ∃ results,
    fetch_all_vulnerabilities net completed packages = Return results
    ∧ dom results = list_to_set packages.*1
    ∧ ∀ i pkg ver, packages !! i = Some (pkg, ver) →
        ∃ v, query_osv (net i) pkg ver = Return v ∧ results !! pkg = Some v.
Proof.
  intros Hnd Hperm.
  unfold fetch_all_vulnerabilities, fetch_all_vulnerabilities_log.
  set (futures := imap _ packages).
  destruct (collect_spec futures completed ∅ []) as (results & Hc & Hdom & Hval).
  - apply Forall_lookup_2. intros i [o k]. unfold futures.
    rewrite list_lookup_imap. destruct (packages !! i) as [d|]; [|done].
    simpl. intros [= <- <-]. apply query_osv_returns.
  - rewrite Hperm. apply Forall_forall. intros i Hi%elem_of_seq.
    unfold futures. rewrite length_imap. lia.
  - assert (Hkeys : future_key futures <$> completed ≡ₚ packages.*1).
    { rewrite Hperm. unfold futures. by rewrite future_key_imap. }
    assert (Hdom' : dom results = list_to_set packages.*1).
    { rewrite Hdom, dom_empty_L, Hkeys. set_solver. }
    exists results. rewrite Hc. split; [done|]. split; [done|].
    intros i pkg ver Hi.
    assert (Hin : pkg ∈ dom results).
    { rewrite Hdom', elem_of_list_to_set, list_elem_of_fmap.
      exists (pkg, ver). split; [done|]. by eapply list_elem_of_lookup_2. }
    apply elem_of_dom in Hin as [v Hv]. exists v. split; [|done].
    destruct (Hval pkg v Hv) as [Hemp | (j & _ & Hf)];
      [by rewrite lookup_empty in Hemp|].
    unfold futures in Hf. rewrite list_lookup_imap in Hf.
    destruct (packages !! j) as [[pkg' ver']|] eqn:Hj; [|done].
    simpl in Hf. injection Hf as Hq <-.
    assert (i = j) as ->.
    { eapply NoDup_lookup; [exact Hnd| |];
        rewrite list_lookup_fmap; [by rewrite Hi | by rewrite Hj]. }
    rewrite Hi in Hj. by injection Hj as <-.
Qed.

(** X11: when no name is declared twice, the dictionary does not depend on
    the order in which the fetches finish. *)
Theorem fetch_all_vulnerabilities_order net completed completed'
    (packages : list declaration) :
  NoDup packages.*1 →
  completed ≡ₚ seq 0 (length packages) →
  completed' ≡ₚ seq 0 (length packages) →
  fetch_all_vulnerabilities net completed packages
  = fetch_all_vulnerabilities net completed' packages.
Proof.
  intros Hnd Hp Hp'.
  destruct (fetch_all_vulnerabilities_distinct net completed packages Hnd Hp)
    as (r & -> & Hdom & Hval).
  destruct (fetch_all_vulnerabilities_distinct net completed' packages Hnd Hp')
    as (r' & -> & Hdom' & Hval').
  f_equal. apply map_eq. intros k.
  destruct (decide (k ∈ packages.*1)) as [Hin|Hnin].
  - apply list_elem_of_fmap in Hin as ([pkg ver] & -> & Hd).
    apply list_elem_of_lookup in Hd as [i Hi]. simpl.
    destruct (Hval i pkg ver Hi) as (v & Hq & ->).
    destruct (Hval' i pkg ver Hi) as (v' & Hq' & ->).
    congruence.
  - rewrite (proj1 (not_elem_of_dom r k)), (proj1 (not_elem_of_dom r' k)); [done| |].
    + rewrite Hdom'. set_solver.
    + rewrite Hdom. set_solver.
Qed.

Lemma fetch_all_vulnerabilities_order_witness :
  let packages := [(cps "flask", None); (cps "numpy", Some (cps "1.0"))] in
  let net := λ (_ : nat) (_ : osv_payload), Raise RequestException in
  fetch_all_vulnerabilities net [0; 1]%nat packages
  = fetch_all_vulnerabilities net [1; 0]%nat packages.
Proof.
  intros packages net. apply fetch_all_vulnerabilities_order.
  - simpl. apply NoDup_cons. split; [|apply NoDup_singleton].
    rewrite list_elem_of_singleton. discriminate.
  - reflexivity.
  - simpl. apply perm_swap.
Defined.

(** ** Age fetcher: when a package counts as new *)

Lemma timedelta_days_lt (us days : Z) :
  timedelta_days us < days ↔ us < days * microseconds_per_day.
Proof.
  unfold timedelta_days, microseconds_per_day.
  pose proof (Z.div_mod us (86400 * 1000000)).
  pose proof (Z.mod_pos_bound us (86400 * 1000000)).
  lia.
Qed.

(** X12: after a successful lookup the package counts as new exactly when
    the first listed artifact was published less than 30 times 24 hours
    before the clock, which includes every time stamp later than the
    clock. *)
Theorem is_new_boundary get now package data first rest t :
  get package = Return data →
  urls data = Some (first :: rest) →
  upload_time first = Some t →
  ∃ age,
    fetch_pypi_age get now package = Return age
    ∧ (is_new_of age = true ↔ now - t < 30 * microseconds_per_day)
    ∧ (now < t → is_new_of age = true).
Proof.
  intros Hg Hu Ht. eexists. split; [by eapply fetch_pypi_age_first|].
  unfold is_new_of. rewrite bool_decide_eq_true, timedelta_days_lt.
  split; [done|]. unfold microseconds_per_day. lia.
Qed.

Lemma is_new_boundary_witness :
  let day := microseconds_per_day in
  let registry := λ _ : pystr,
    Return (PypiData (Some [Artifact (Some (10 * day + 1))])) in
  ∃ age,
    fetch_pypi_age registry (40 * day) (cps "flask") = Return age
    ∧ is_new_of age = true.
Proof.
  intros day registry.
  destruct (is_new_boundary registry (40 * day) (cps "flask")
              (PypiData (Some [Artifact (Some (10 * day + 1))]))
              (Artifact (Some (10 * day + 1))) [] (10 * day + 1)
              eq_refl eq_refl eq_refl) as (age & Ha & Hnew & _).
  exists age. split; [exact Ha|]. apply Hnew. reflexivity.
Defined.

(** ** Row loop: each row and its own lookups *)

Section PipelineMore.
Variable py_repr : json → pystr.
Variable fuzz_ratio : pystr → pystr → Z.
Variable py_lower : pystr → pystr.
Variable w : world.

(** X13: when every age lookup fails, the rows that the script returns are
    one per kept line; no row has an age, none is treated as new, and no
    score is below 30.  The script does return its rows when the
    vulnerability service answers as documented. *)
Theorem age_lookup_fail_open file_content :
  (∀ i package, lookup_failed (pypi_get w i package)) →
  (∀ rows,
     analyse py_repr fuzz_ratio py_lower w file_content = Return rows →
     length rows = length (kept_lines file_content)
     ∧ Forall (λ r, PackageAge r = None
                    ∧ 30 ≤ TrustScore r
                    ∧ ∃ vulns,
                        TrustScore r
                        = calculate_trust_score py_repr vulns (Similarity r)
                                                false) rows)
  ∧ (well_typed_answers w →
     ∃ rows,
       analyse py_repr fuzz_ratio py_lower w file_content = Return rows).
Proof.
  intros Hfail. split; [|apply analyse_returns].
  intros rows (vuln_data & _ & Hlen & Hrows)%analyse_rows.
  split; [done|]. apply Forall_lookup_2. intros k r Hr.
  assert (is_Some ((declaration_of <$> kept_lines file_content) !! k))
    as [d Hd].
  { apply lookup_lt_is_Some. rewrite length_fmap, <- Hlen.
    by eapply lookup_lt_Some. }
  destruct (make_row_spec _ _ _ _ _ _ _ _ (Hrows k d r Hd Hr))
    as [(_ & _ & _ & _ & Hs & _) Hage].
  rewrite fetch_pypi_age_failed in Hage by apply Hfail.
  injection Hage as Hage. rewrite <- Hage in Hs. cbn [is_new_of] in Hs.
  destruct (calculate_trust_score_py_returns _ _ _ _ _ Hs)
    as (_ & _ & records & Hrec).
  split; [done|]. split; [|by exists records].
  rewrite Hrec. unfold calculate_trust_score, score_before_floor.
  destruct (existsb _ _), (bool_decide _); lia.
Qed.

(** X14: when no name is declared twice and every fetch finishes once,
    each row that the script returns counts the vulnerabilities of its own
    package: the answer of the query for the name and version of its line,
    which is also what its score is computed from.  When that answer is a
    list of objects, the count is its length and the score is
    [calculate_trust_score] of its records. *)
Theorem rows_use_own_answer file_content :
  let packages := declaration_of <$> kept_lines file_content in
  NoDup packages.*1 →
  completed w ≡ₚ seq 0 (length packages) →
  (∀ rows,
     analyse py_repr fuzz_ratio py_lower w file_content = Return rows →
     ∀ k (d : declaration) r,
       packages !! k = Some d → rows !! k = Some r →
       ∃ vulns,
         query_osv (osv_post w k) d.1 d.2 = Return vulns
         ∧ Package r = d.1
         ∧ py_len vulns = Return (Vulnerabilities r)
         ∧ calculate_trust_score_py py_repr vulns (Similarity r)
                                    (is_new_of (PackageAge r))
           = Return (TrustScore r)
         ∧ ∀ objs, vulns = JArr (JObj <$> objs) →
             Vulnerabilities r = length objs
             ∧ TrustScore r
               = calculate_trust_score py_repr (record_of <$> objs)
                   (Similarity r) (is_new_of (PackageAge r)))
  ∧ (well_typed_answers w →
     ∃ rows,
       analyse py_repr fuzz_ratio py_lower w file_content = Return rows).
Proof.
  intros packages Hnd Hperm. split; [|apply analyse_returns].
  intros rows (vuln_data & Hv & _ & Hrows)%analyse_rows.
  fold packages in Hv, Hrows.
  destruct (fetch_all_vulnerabilities_distinct (osv_post w) (completed w)
              packages Hnd Hperm) as (results & Hres & _ & Hown).
  rewrite Hv in Hres. injection Hres as <-.
  intros k [pkg ver] r Hd Hr.
  destruct (Hown k pkg ver Hd) as (vulns & Hq & Hl).
  exists vulns. split; [done|].
  destruct (make_row_spec _ _ _ _ _ _ _ _ (Hrows k _ r Hd Hr))
    as [(Hp & _ & Hn & _ & Hs & _) _].
  simpl in Hp, Hn, Hs. rewrite Hl in Hn, Hs. simpl in Hn, Hs.
  split; [done|]. split; [done|]. split; [done|].
  intros objs ->. simpl in Hn.
  rewrite calculate_trust_score_py_records in Hs.
  injection Hn as Hn. injection Hs as Hs.
  rewrite length_fmap in Hn. done.
Qed.
End PipelineMore.

Lemma age_lookup_fail_open_witness :
  let offline :=
    {| osv_post := λ _ _, Raise RequestException;
       completed := [0]%nat;
       pypi_get := λ _ _, Raise RequestException;
       clock := λ _, 0 |} in
  ∃ rows,
    analyse (λ _, []) Fuzz.ratio Fuzz.lower offline (cps "flask") = Return rows
    ∧ Forall (λ r, PackageAge r = None) rows.
Proof.
  intros offline.
  destruct (age_lookup_fail_open (λ _, []) Fuzz.ratio Fuzz.lower offline
              (cps "flask")) as (Hrows & Hret).
  - intros i package. exact I.
  - destruct Hret as [rows Ha].
    + intros i payload r members x Hr. discriminate Hr.
    + exists rows. split; [exact Ha|].
      destruct (Hrows rows Ha) as [_ Hall].
      eapply Forall_impl; [exact Hall|]. intros r Hr. exact (proj1 Hr).
Defined.

Lemma rows_use_own_answer_witness :
  let v := JObj [(cps "id", JStr (cps "GHSA-1"))] in
  let online :=
    {| osv_post := λ _ payload,
         Return (Response 200 (Return (JObj
           (if bool_decide (payload_name payload = cps "flask")
            then [(cps "vulns", JArr [v])] else []))));
       completed := [1; 0]%nat;
       pypi_get := λ _ _, Raise RequestException;
       clock := λ _, 0 |} in
  ∃ rows,
    analyse (λ _, []) Fuzz.ratio Fuzz.lower online
            (cps "flask" ++ 10%N :: cps "numpy") = Return rows
    ∧ Vulnerabilities <$> rows = [1; 0]%nat.
Proof.
  intros v online.
  destruct (rows_use_own_answer (λ _, []) Fuzz.ratio Fuzz.lower online
              (cps "flask" ++ 10%N :: cps "numpy")) as (_ & Hret).
  - apply (bool_decide_unpack _). vm_compute. exact I.
  - vm_compute. apply perm_swap.
  - destruct Hret as [rows Ha].
    + intros i payload r members x [= <-] _ [= <-]. simpl.
      case_bool_decide; [|discriminate].
      intros [= <-]. by exists [[(cps "id", JStr (cps "GHSA-1"))]].
    + exists rows. split; [exact Ha|].
      assert (Hc : analyse (λ _, []) Fuzz.ratio Fuzz.lower online
                     (cps "flask" ++ 10%N :: cps "numpy")
                   = Return rows) by exact Ha.
      vm_compute in Hc. injection Hc as <-. reflexivity.
Defined.

(** ** Risk distribution, details and the whole script *)

Lemma band_counts (scores : list Z) :
  (length (filter (λ s, (s >= 80)%Z) scores)
   + length (filter (λ s, (s >= 60)%Z ∧ (s < 80)%Z) scores)
   + length (filter (λ s, (s >= 40)%Z ∧ (s < 60)%Z) scores)
   + length (filter (λ s, (s < 40)%Z) scores))%nat
  = length scores.
Proof.
  induction scores as [|s scores IH]; [done|].
  rewrite !filter_cons. repeat case_decide; simpl; lia.
Qed.

Lemma band_count_colour (P : Z → Prop) `{∀ s, Decision (P s)}
    (colour : pystr) (rows : list row) :
  (∀ s, bar_color s = colour ↔ P s) →
  length (filter P (TrustScore <$> rows))
  = length (filter (λ r, bar_color (TrustScore r) = colour) rows).
Proof.
  intros Hc. induction rows as [|r rows IH]; [done|].
  cbn [fmap list_fmap]. rewrite !filter_cons.
  destruct (decide (P (TrustScore r))) as [HP|HP];
    destruct (decide (bar_color (TrustScore r) = colour)) as [Hb|Hb];
    simpl; rewrite ?IH; try done.
  - by apply Hc in HP.
  - by apply Hc in Hb.
Qed.

(** X15: the four counts of the risk distribution add up to the number of
    rows, and each is the number of rows whose bar has the colour of the
    band: green, yellow, orange and red. *)
Theorem risk_distribution_partition (rows : list row) (dist : distribution) :
  risk_distribution rows = Return dist →
  total dist = length rows
  ∧ (safe dist + review dist + risky dist + danger dist)%nat = total dist
  ∧ safe dist
    = length (filter (λ r, bar_color (TrustScore r) = cps "#22c55e") rows)
  ∧ review dist
    = length (filter (λ r, bar_color (TrustScore r) = cps "#eab308") rows)
  ∧ risky dist
    = length (filter (λ r, bar_color (TrustScore r) = cps "#f97316") rows)
  ∧ danger dist
    = length (filter (λ r, bar_color (TrustScore r) = cps "#ef4444") rows).
Proof.
  unfold risk_distribution. destruct rows as [|r0 rows0] eqn:Hrows; [done|].
  rewrite <- Hrows. clear Hrows. intros [= <-]. cbn [safe review risky danger total].
  split; [done|]. split.
  { rewrite band_counts. by rewrite length_fmap. }
  split; [|split; [|split]]; apply band_count_colour; intros s;
    destruct (bar_color_bands s) as (Hred & Hor & Hye & Hgr);
    first [ rewrite Hgr | rewrite Hye | rewrite Hor | rewrite Hred ]; lia.
Qed.

Lemma risk_distribution_partition_witness :
  let r := Row (cps "flask") (cps "Any") 0 100 (Some (cps "flask")) None 50
               no_risk_factors in
  ∃ dist,
    risk_distribution [r; r] = Return dist
    ∧ (safe dist + review dist + risky dist + danger dist)%nat = 2%nat.
Proof.
  intros r. eexists. split; [reflexivity|].
  destruct (risk_distribution_partition [r; r] _ eq_refl) as (Ht & Hs & _).
  rewrite Hs. exact Ht.
Defined.

Section ScriptFacts.
Variable py_repr : json → pystr.
Variable fuzz_ratio : pystr → pystr → Z.
Variable py_lower : pystr → pystr.
Variable w : world.

Lemma any_critical_raises items e :
  any_critical py_repr items = Raise e → e = AttributeError.
Proof.
  induction items as [|v items IH]; [done|]. cbn [any_critical].
  destruct v; cbn [as_record bind]; try (by intros [= <-]).
  destruct (critical py_repr _); [done | exact IH].
Qed.

Lemma py_iter_raises x e : py_iter x = Raise e → e = TypeError.
Proof. destruct x; simpl; by intros [= <-]. Qed.

Lemma make_row_raises i vuln_data (d : declaration) e :
  make_row py_repr fuzz_ratio py_lower w i vuln_data d = Raise e →
  e = TypeError ∨ e = AttributeError.
Proof.
  unfold make_row.
  destruct (try_except_returns
              (fetch_pypi_age_body (pypi_get w i) (clock w i) d.1) None)
    as [age Hage].
  unfold fetch_pypi_age. rewrite Hage. cbn [bind].
  destruct (calculate_trust_score_py _ _ _ _) as [score|e'] eqn:Hs; cbn [bind].
  - destruct (calculate_trust_score_py_returns _ _ _ _ _ Hs)
      as ((items & _ & ->) & (lines & ->) & _). done.
  - intros [= <-]. unfold calculate_trust_score_py in Hs.
    destruct (py_iter _) as [items|e0] eqn:Hi; cbn [bind] in Hs.
    + destruct (any_critical py_repr items) as [hit|e1] eqn:Hc;
        cbn [bind] in Hs; [done|].
      injection Hs as <-. right. by eapply any_critical_raises.
    + injection Hs as <-. left. by eapply py_iter_raises.
Qed.

Lemma build_rows_raises i vuln_data (todo : list declaration) rows e :
  build_rows py_repr fuzz_ratio py_lower w i vuln_data todo rows = Raise e →
  e = TypeError ∨ e = AttributeError.
Proof.
  revert i rows. induction todo as [|d rest IH]; intros i rows; [done|].
  cbn [build_rows].
  destruct (make_row _ _ _ _ i vuln_data d) as [r|e'] eqn:Hr; cbn [bind].
  - apply IH.
  - intros [= <-]. by eapply make_row_raises.
Qed.

Lemma detail_lines_spec items lines :
  detail_lines py_repr items = Return lines → length lines = length items.
Proof.
  revert lines. induction items as [|v items IH]; intros lines.
  - by intros [= <-].
  - cbn [detail_lines]. destruct (as_record v); cbn [bind]; [|done].
    destruct (detail_lines py_repr items) as [ls|]; cbn [bind]; [|done].
    intros [= <-]. simpl. f_equal. by apply IH.
Qed.

Lemma detail_lines_raises items e :
  detail_lines py_repr items = Raise e → e = AttributeError.
Proof.
  induction items as [|v items IH]; [done|]. cbn [detail_lines].
  destruct v; cbn [as_record bind]; try (by intros [= <-]).
  destruct (detail_lines py_repr items); cbn [bind]; [done|].
  intros [= <-]. by apply IH.
Qed.

Lemma detail_lines_records objs :
  ∃ lines, detail_lines py_repr (JObj <$> objs) = Return lines.
Proof.
  induction objs as [|members objs [lines IH]]; [by eexists|].
  cbn [fmap list_fmap detail_lines as_record bind]. rewrite IH. by eexists.
Qed.

Lemma vulnerability_details_raises vuln_data rows e :
  vulnerability_details py_repr vuln_data rows = Raise e →
  e = TypeError ∨ e = AttributeError.
Proof.
  induction rows as [|r rows IH]; [done|]. cbn [vulnerability_details].
  case_bool_decide; [exact IH|].
  destruct (py_iter _) as [items|e0] eqn:Hi; cbn [bind];
    [|intros [= <-]; left; by eapply py_iter_raises].
  destruct (detail_lines py_repr items) as [lines|e1] eqn:Hl; cbn [bind];
    [|intros [= <-]; right; by eapply detail_lines_raises].
  destruct (vulnerability_details py_repr vuln_data rows); cbn [bind];
    [done|]. intros [= <-]. by apply IH.
Qed.

Lemma vulnerability_details_returns vuln_data rows :
  (∀ pkg, record_list (default (JArr []) (vuln_data !! pkg))) →
  ∃ details, vulnerability_details py_repr vuln_data rows = Return details.
Proof.
  intros Hwt. induction rows as [|r rows [details IH]]; [by eexists|].
  cbn [vulnerability_details]. case_bool_decide; [by eexists|].
  destruct (Hwt (Package r)) as [objs ->]. cbn [py_iter bind].
  destruct (detail_lines_records objs) as [lines ->]. cbn [bind].
  rewrite IH. by eexists.
Qed.

Lemma vulnerability_details_spec vuln_data (rows : list row) details :
  Forall (λ r, py_len (default (JArr []) (vuln_data !! Package r))
               = Return (Vulnerabilities r)) rows →
  vulnerability_details py_repr vuln_data rows = Return details →
  Forall2 (λ r (e : pystr * list pystr),
             e.1 = detail_title r ∧ length e.2 = Vulnerabilities r)
          (filter (λ r, Vulnerabilities r ≠ 0%nat) rows) details.
Proof.
  intros Hall. revert details.
  induction Hall as [|r rows Hr _ IH]; intros details.
  - intros [= <-]. constructor.
  - cbn [vulnerability_details]. rewrite filter_cons.
    case_bool_decide as Hz.
    + rewrite decide_False by (intros Hn; done). apply IH.
    + rewrite decide_True by done.
      destruct (py_iter _) as [items|] eqn:Hi; cbn [bind]; [|done].
      destruct (detail_lines py_repr items) as [lines|] eqn:Hl;
        cbn [bind]; [|done].
      destruct (vulnerability_details py_repr vuln_data rows) as [more|];
        cbn [bind]; [|done].
      intros [= <-]. constructor; [|by apply IH]. simpl. split; [done|].
      apply py_iter_len in Hi. rewrite Hi in Hr. injection Hr as <-.
      by apply detail_lines_spec.
Qed.

(** The script after the row loop. *)
Lemma script_unfold file_content :
  ∃ vuln_data,
    fetch_all_vulnerabilities (osv_post w) (completed w)
      (declaration_of <$> kept_lines file_content) = Return vuln_data
    ∧ script py_repr fuzz_ratio py_lower w file_content
      = (let! rows := analyse py_repr fuzz_ratio py_lower w file_content in
         let! dist := risk_distribution rows in
         let! details := vulnerability_details py_repr vuln_data rows in
         Return {| report_rows := rows;
                   report_distribution := dist;
                   report_details := details |}).
Proof.
  destruct (pipeline py_repr fuzz_ratio py_lower w file_content)
    as (vuln_data & Hv & -> & _).
  exists vuln_data. split; [done|].
  unfold script. rewrite parse_requirements_spec. cbn [bind].
  by rewrite Hv.
Qed.

(** X16: the script raises [KeyError] exactly for a manifest without any
    declaration (empty, or blank lines and comments only), where the risk
    distribution selects a column of a frame without columns.  A report
    that the script returns holds the rows of the row loop and counts as
    many rows as there are kept lines; for a manifest with a declaration
    the script does return a report when the vulnerability service answers
    as documented. *)
Theorem script_outcome file_content :
  (script py_repr fuzz_ratio py_lower w file_content = Raise KeyError
   ↔ kept_lines file_content = [])
  ∧ (∀ rep,
       script py_repr fuzz_ratio py_lower w file_content = Return rep →
       analyse py_repr fuzz_ratio py_lower w file_content
       = Return (report_rows rep)
       ∧ total (report_distribution rep) = length (kept_lines file_content))
  ∧ (kept_lines file_content ≠ [] →
     well_typed_answers w →
     ∃ rep, script py_repr fuzz_ratio py_lower w file_content = Return rep).
Proof.
  destruct (script_unfold file_content) as (vuln_data & Hv & ->).
  split; [|split].
  - destruct (analyse _ _ _ _ file_content) as [rows|e] eqn:Ha; cbn [bind].
    + destruct (analyse_rows _ _ _ _ _ _ Ha) as (_ & _ & Hlen & _).
      destruct rows as [|r rows].
      * simpl. split; [intros _|done].
        by destruct (kept_lines file_content).
      * cbn [risk_distribution bind].
        destruct (vulnerability_details py_repr vuln_data (r :: rows))
          as [details|e] eqn:Hd; cbn [bind].
        -- split; [done|]. intros Hk. by rewrite Hk in Hlen.
        -- split; [|intros Hk; by rewrite Hk in Hlen].
           intros [= ->].
           by destruct (vulnerability_details_raises _ _ _ Hd).
    + split.
      * intros [= ->].
        destruct (pipeline py_repr fuzz_ratio py_lower w file_content)
          as (vd & _ & Heq & _).
        rewrite Heq in Ha. by destruct (build_rows_raises _ _ _ _ _ Ha).
      * intros Hk.
        destruct (pipeline py_repr fuzz_ratio py_lower w file_content)
          as (vd & _ & Heq & _).
        rewrite Heq, Hk in Ha. done.
  - intros rep.
    destruct (analyse _ _ _ _ file_content) as [rows|e] eqn:Ha;
      cbn [bind]; [|done].
    destruct (analyse_rows _ _ _ _ _ _ Ha) as (_ & _ & Hlen & _).
    destruct rows as [|r rows]; [done|]. cbn [risk_distribution bind].
    destruct (vulnerability_details _ _ _); cbn [bind]; [|done].
    by intros [= <-].
  - intros Hne Hwt.
    destruct (analyse_returns py_repr fuzz_ratio py_lower w file_content Hwt)
      as [rows Ha].
    rewrite Ha. cbn [bind].
    destruct (analyse_rows _ _ _ _ _ _ Ha) as (_ & _ & Hlen & _).
    destruct rows as [|r rows].
    { destruct (kept_lines file_content); done. }
    cbn [risk_distribution bind].
    destruct (vulnerability_details_returns vuln_data (r :: rows))
      as [details ->]; [|by eexists].
    destruct (pipeline py_repr fuzz_ratio py_lower w file_content)
      as (vd & Hvd & _ & HP).
    rewrite Hv in Hvd. injection Hvd as <-.
    apply (HP record_list); [|by exists []].
    intros i pkg ver v. apply query_osv_well_typed, Hwt.
Qed.

(** X17: the vulnerability details open one expander for each row that
    counts at least one vulnerability, in the order of the rows, and each
    expander lists exactly as many records as its title and the table
    announce. *)
Theorem details_match_counts file_content (rep : report) :
  script py_repr fuzz_ratio py_lower w file_content = Return rep →
  Forall2 (λ r (e : pystr * list pystr),
             e.1 = detail_title r ∧ length e.2 = Vulnerabilities r)
          (filter (λ r, Vulnerabilities r ≠ 0%nat) (report_rows rep))
          (report_details rep).
Proof.
  destruct (script_unfold file_content) as (vuln_data & Hv & ->).
  destruct (analyse _ _ _ _ file_content) as [rows|e] eqn:Ha;
    cbn [bind]; [|done].
  destruct (risk_distribution rows) as [dist|e]; cbn [bind]; [|done].
  destruct (vulnerability_details py_repr vuln_data rows) as [details|e]
    eqn:Hd; cbn [bind]; [|done].
  intros [= <-]. cbn [report_rows report_details].
  apply (vulnerability_details_spec vuln_data); [|done].
  destruct (analyse_rows _ _ _ _ _ _ Ha) as (vd & Hvd & Hlen & Hrows).
  rewrite Hv in Hvd. injection Hvd as <-.
  apply Forall_lookup_2. intros k r Hr.
  assert (is_Some ((declaration_of <$> kept_lines file_content) !! k))
    as [d Hk].
  { apply lookup_lt_is_Some. rewrite length_fmap, <- Hlen.
    by eapply lookup_lt_Some. }
  destruct (make_row_spec _ _ _ _ _ _ _ _ (Hrows k d r Hk Hr))
    as [(Hp & _ & Hn & _) _].
  by rewrite Hp.
Qed.
End ScriptFacts.

Lemma script_outcome_witness :
  let offline :=
    {| osv_post := λ _ _, Raise RequestException;
       completed := [0]%nat;
       pypi_get := λ _ _, Raise RequestException;
       clock := λ _, 0 |} in
  ∃ rep,
    script (λ _, []) Fuzz.ratio Fuzz.lower offline (cps "flask") = Return rep
    ∧ total (report_distribution rep) = 1%nat.
Proof.
  intros offline.
  destruct (script_outcome (λ _, []) Fuzz.ratio Fuzz.lower offline
              (cps "flask")) as (_ & Hrep & Hret).
  destruct Hret as [rep Hs].
  - discriminate.
  - intros i payload r members x Hr. discriminate Hr.
  - exists rep. split; [exact Hs|]. exact (proj2 (Hrep rep Hs)).
Defined.

Lemma details_match_counts_witness :
  let v := JObj [(cps "id", JStr (cps "GHSA-1"))] in
  let online :=
    {| osv_post := λ _ _,
         Return (Response 200 (Return (JObj [(cps "vulns", JArr [v; v])])));
       completed := [0]%nat;
       pypi_get := λ _ _, Raise RequestException;
       clock := λ _, 0 |} in
  ∃ rep,
    script (λ _, []) Fuzz.ratio Fuzz.lower online (cps "zzz") = Return rep
    ∧ Forall2 (λ r (e : pystr * list pystr),
                 e.1 = detail_title r ∧ length e.2 = Vulnerabilities r)
              (filter (λ r, Vulnerabilities r ≠ 0%nat) (report_rows rep))
              (report_details rep)
    ∧ length (report_details rep) = 1%nat.
Proof.
  intros v online. eexists. split; [by vm_compute|].
  split; [|reflexivity].
  apply (details_match_counts (λ _, []) Fuzz.ratio Fuzz.lower online (cps "zzz")).
  by vm_compute.
Defined.
